(** * The product export transformation ([scripts/create-export]), embedded in Rocq

    The export routine reads a CSV or XLSX product file, removes the columns
    whose header starts with one of a fixed list of prefixes, keeps the data
    rows that carry a "Variant SKU" value and writes the table back in the
    format it came in.

    JavaScript strings are sequences of UTF-16 code units: a string is a
    [list N] here, one number per code unit.  Arrays are lists; an array
    with holes (as the XLSX reader returns for blank cells) is a list of
    options.  The two [Set]s of the source are [gset]s. *)

From Stdlib Require Import List NArith ZArith Lia Bool Ascii String.
From Stdlib Require Strings.Byte.
From stdpp Require Import base decidable list gmap.
Import ListNotations.

Local Open Scope N_scope.
Local Open Scope list_scope.

(** ** Strings *)

Abbreviation jsstring := (list N).

(** A string literal of the source, as its code units. *)
Definition js (s : string) : jsstring :=
  List.map N_of_ascii (list_ascii_of_string s).

Definition DQUOTE : N := 34.
Definition COMMA : N := 44.
Definition LF : N := 10.
Definition CR : N := 13.

(** [s.includes(u)] for a needle of one code unit. *)
Definition includes (s : jsstring) (u : N) : bool := existsb (N.eqb u) s.

(** [s.startsWith(p)]. *)
Fixpoint startsWith (s p : jsstring) : bool :=
  match p, s with
  | [], _ => true
  | _ :: _, [] => false
  | b :: p', a :: s' => (a =? b) && startsWith s' p'
  end.

(** [a === b] on strings. *)
Definition str_eqb (a b : jsstring) : bool := bool_decide (a = b).

(** [s.endsWith(p)]: the code units of [s] from [s.length - p.length] on
    are those of [p]; false when [p] is the longer one. *)
Definition endsWith (s p : jsstring) : bool :=
  (length p <=? length s)%nat
  && str_eqb (List.skipn (length s - length p) s) p.

(** Truthiness of a string: every string but the empty one. *)
Definition str_truthy (s : jsstring) : bool :=
  match s with [] => false | _ :: _ => true end.

(** White space and line terminators of ECMAScript, the code units that
    [String.prototype.trim] strips. *)
Definition isWhiteSpace (u : N) : bool :=
  (u =? 9) || (u =? 10) || (u =? 11) || (u =? 12) || (u =? 13) || (u =? 32)
  || (u =? 160) || (u =? 5760) || ((8192 <=? u) && (u <=? 8202))
  || (u =? 8232) || (u =? 8233) || (u =? 8239) || (u =? 8287)
  || (u =? 12288) || (u =? 65279).

Fixpoint trimStart (s : jsstring) : jsstring :=
  match s with
  | u :: s' => if isWhiteSpace u then trimStart s' else s
  | [] => []
  end.

Definition trimEnd (s : jsstring) : jsstring := rev (trimStart (rev s)).

Definition trim (s : jsstring) : jsstring := trimEnd (trimStart s).

(** [s.toLowerCase()].  The letters A to Z are mapped to a to z.  Letters
    beyond ASCII are left as they are: none of them lowers to a code unit
    of the suffixes .csv and .xlsx, the only strings the result is compared with. *)
Definition lower_unit (u : N) : N :=
  if (65 <=? u) && (u <=? 90) then u + 32 else u.

Definition toLowerCase (s : jsstring) : jsstring := List.map lower_unit s.

(** [arr.join(sep)] on an array of strings. *)
Fixpoint join (sep : jsstring) (l : list jsstring) : jsstring :=
  match l with
  | [] => []
  | [x] => x
  | x :: l' => x ++ sep ++ join sep l'
  end.

(** ** Cells *)

(** A cell of a parsed table.  The CSV parser yields strings only.  The
    XLSX reader also yields numbers, booleans, dates and [null]; the source
    looks at such a value through its truthiness and through [String(v)]
    (which is [v.toString()] for the values that have one), so that is what
    the model keeps of it. *)
Inductive cell :=
| CStr (s : jsstring)
| CPrim (truthy : bool) (text : jsstring).

#[global] Instance cell_eq_dec : EqDecision cell.
Proof. solve_decision. Defined.

(** [String(v)] *)
Definition String_ (v : cell) : jsstring :=
  match v with CStr s => s | CPrim _ t => t end.

Definition cell_truthy (v : cell) : bool :=
  match v with CStr s => str_truthy s | CPrim b _ => b end.

(** ** parseCSV *)

Record pstate := mkP {
  rows : list (list jsstring);
  currentRow : list jsstring;
  currentField : jsstring;
  insideQuotes : bool
}.

Definition opt_is (o : option N) (u : N) : bool :=
  match o with Some v => v =? u | None => false end.

(** [currentField || currentRow.length > 0] *)
Definition pending (st : pstate) : bool :=
  str_truthy (currentField st) || negb (Nat.eqb (length (currentRow st)) 0).

(** [currentRow.push(currentField); rows.push(currentRow)] and, inside the
    loop, the two resets that follow. *)
Definition push_record (st : pstate) : pstate :=
  mkP (rows st ++ [currentRow st ++ [currentField st]]) [] [] (insideQuotes st).

(** One turn of the loop at [char = content[i]], [nextChar = content[i+1]]
    ([None] when [i+1] is past the end).  The boolean tells whether the body
    ran [i++]. *)
Definition step (char : N) (nextChar : option N) (st : pstate) : pstate * bool :=
  if char =? DQUOTE then
    if insideQuotes st && opt_is nextChar DQUOTE then
      (mkP (rows st) (currentRow st) (currentField st ++ [DQUOTE]) (insideQuotes st), true)
    else
      (mkP (rows st) (currentRow st) (currentField st) (negb (insideQuotes st)), false)
  else if (char =? COMMA) && negb (insideQuotes st) then
    (mkP (rows st) (currentRow st ++ [currentField st]) [] (insideQuotes st), false)
  else if ((char =? LF) || (char =? CR)) && negb (insideQuotes st) then
    let skip := (char =? CR) && opt_is nextChar LF in
    ((if pending st then push_record st else st), skip)
  else
    (mkP (rows st) (currentRow st) (currentField st ++ [char]) (insideQuotes st), false).

(** The [for] loop over the code units of [content]. *)
Fixpoint parse_loop (content : jsstring) (st : pstate) : pstate :=
  match content with
  | [] => st
  | char :: rest =>
      let '(st', skip) := step char (head rest) st in
      if skip then
        match rest with
        | _ :: rest' => parse_loop rest' st'
        | [] => st'
        end
      else parse_loop rest st'
  end.

(** After the loop: what is left pending is the last record. *)
Definition finish (st : pstate) : list (list jsstring) :=
  if pending st then rows (push_record st) else rows st.

Definition parseCSV (content : jsstring) : list (list jsstring) :=
  finish (parse_loop content (mkP [] [] [] false)).

(** ** rowToCSV *)

(** [fieldStr.replace] with the global pattern that matches one quote
    character: every quote character is written twice. *)
Fixpoint double_quotes (s : jsstring) : jsstring :=
  match s with
  | [] => []
  | u :: s' => if u =? DQUOTE then DQUOTE :: DQUOTE :: double_quotes s'
               else u :: double_quotes s'
  end.

Definition needs_quoting (fieldStr : jsstring) : bool :=
  includes fieldStr COMMA || includes fieldStr DQUOTE
  || includes fieldStr LF || includes fieldStr CR.

(** The template literal of the quoting branch: the field between two
    quote characters, its own quote characters doubled. *)
Definition quoted (fieldStr : jsstring) : jsstring :=
  [DQUOTE] ++ double_quotes fieldStr ++ [DQUOTE].

Definition fieldToCSV (field : cell) : jsstring :=
  let fieldStr := String_ field in
  if needs_quoting fieldStr then quoted fieldStr else fieldStr.

Definition rowToCSV (row : list cell) : jsstring :=
  join [COMMA] (List.map fieldToCSV row).

(** [table.map((row) => rowToCSV(row)).join("\n")] *)
Definition tableToCSV (table : list (list cell)) : jsstring :=
  join [LF] (List.map rowToCSV table).

(** ** transformData *)

Definition prefixes : list jsstring :=
  [ js "Google"; js "Option1"; js "Option2"; js "Option3"; js "Image Src";
    js "Image Position"; js "Variant Image"; js "Image Alt Text";
    js "Unit Price" ].

(** [prefixes.some((prefix) => headerStr.startsWith(prefix))] *)
Definition has_listed_prefix (headerStr : jsstring) : bool :=
  existsb (fun prefix => startsWith headerStr prefix) prefixes.

(** [headers.forEach((header, index) => ...)], from [index] on.  [forEach]
    does not visit the holes of an array. *)
Fixpoint collect_indices (headers : list (option cell)) (index : nat)
    (indicesToRemove : gset nat) : gset nat :=
  match headers with
  | [] => indicesToRemove
  | None :: headers' => collect_indices headers' (S index) indicesToRemove
  | Some header :: headers' =>
      let headerStr := String_ header in
      if has_listed_prefix headerStr
      then collect_indices headers' (S index) ({[ index ]} ∪ indicesToRemove)
      else collect_indices headers' (S index) indicesToRemove
  end.

(** [row.filter((_, index) => !indicesToRemove.has(index))], from [index]
    on.  [filter] does not visit holes either, and its result has none. *)
Fixpoint filter_columns (indicesToRemove : gset nat) (row : list (option cell))
    (index : nat) : list cell :=
  match row with
  | [] => []
  | None :: row' => filter_columns indicesToRemove row' (S index)
  | Some v :: row' =>
      if bool_decide (index ∈ indicesToRemove)
      then filter_columns indicesToRemove row' (S index)
      else v :: filter_columns indicesToRemove row' (S index)
  end.

(** [row.findIndex(p)], counting from [i]; -1 when no element passes. *)
Fixpoint findIndex_from (p : cell -> bool) (row : list cell) (i : Z) : Z :=
  match row with
  | [] => (-1)%Z
  | v :: row' => if p v then i else findIndex_from p row' (i + 1)%Z
  end.

Definition findIndex (p : cell -> bool) (row : list cell) : Z :=
  findIndex_from p row 0%Z.

(** [row[i]]: [None] is [undefined], what an index outside of the array
    (-1 included) reads. *)
Definition at_index (row : list cell) (i : Z) : option cell :=
  if (i <? 0)%Z then None else nth_error row (Z.to_nat i).

(** [v ? v.toString().trim() : empty], the empty string for a falsy [v]. *)
Definition trimmed_text (v : option cell) : jsstring :=
  match v with
  | Some c => if cell_truthy c then trim (String_ c) else []
  | None => []
  end.

(** The loop over the data rows, with its two accumulators. *)
Fixpoint keep_loop (variantSKUIndex : Z) (dataRows : list (list cell))
    (handleMap : gset jsstring) (uniqueRows : list (list cell))
    : gset jsstring * list (list cell) :=
  match dataRows with
  | [] => (handleMap, uniqueRows)
  | row :: more =>
      let handle := trimmed_text (at_index row 0%Z) in
      let rowSKU := trimmed_text (at_index row variantSKUIndex) in
      if str_truthy rowSKU
      then keep_loop variantSKUIndex more ({[ handle ]} ∪ handleMap) (uniqueRows ++ [row])
      else keep_loop variantSKUIndex more handleMap uniqueRows
  end.

Definition is_variant_sku (header : cell) : bool :=
  str_eqb (String_ header) (js "Variant SKU").

(** The pruned rows: [rows.map((row) => row.filter(...))]. *)
Definition prune (rows : list (list (option cell))) : list (list cell) :=
  match rows with
  | [] => []
  | headers :: _ =>
      let indicesToRemove := collect_indices headers 0 ∅ in
      List.map (fun row => filter_columns indicesToRemove row 0) rows
  end.

Definition transformData (rows : list (list (option cell))) : list (list cell) :=
  match rows with
  | [] => []
  | _ :: _ =>
      let filteredRows := prune rows in
      let header0 := hd [] filteredRows in
      let variantSKUIndex := findIndex is_variant_sku header0 in
      snd (keep_loop variantSKUIndex (tl filteredRows) ∅ [header0])
  end.

(** Row filtering as the specification words it, with no handle set: the
    pruned header, then the pruned data rows whose trimmed SKU cell is not
    empty. *)
Definition sku_present (variantSKUIndex : Z) (row : list cell) : bool :=
  str_truthy (trimmed_text (at_index row variantSKUIndex)).

Definition transformData_spec (rows : list (list (option cell))) : list (list cell) :=
  match prune rows with
  | [] => []
  | header0 :: dataRows =>
      header0 :: List.filter (sku_present (findIndex is_variant_sku header0)) dataRows
  end.

(** A row the parser can give back: it has a cell, and it is not made of
    one empty cell only. *)
Definition recordable (r : list jsstring) : Prop := r <> [] /\ r <> [[]].

(** The table of strings the CSV parser returns, as a table of cells. *)
Definition cell_of (s : jsstring) : option cell := Some (CStr s).

Definition csv_table (t : list (list jsstring)) : list (list (option cell)) :=
  List.map (List.map cell_of) t.

(** ** Buffers *)

(** A [Buffer] is its bytes.  [buf.toString("utf-8")] decodes them the way
    the runtime does: a malformed sequence gives U+FFFD and decoding goes
    on at the byte that broke it; a code point beyond U+FFFF gives a
    surrogate pair.  [Buffer.from(str, "utf-8")] encodes a string, a lone
    surrogate as U+FFFD. *)
Abbreviation Buffer := (list Byte.byte).

Record utf8_state := mkU {
  code_point : N;
  bytes_needed : nat;
  lower_boundary : N;
  upper_boundary : N
}.

Definition utf8_idle : utf8_state := mkU 0 0 128 191.

Definition in_range (lo hi b : N) : bool := (lo <=? b) && (b <=? hi).

(** A byte met while no sequence is open. *)
Definition utf8_lead (b : N) : list N * utf8_state :=
  if b <=? 127 then ([b], utf8_idle)
  else if in_range 194 223 b then ([], mkU (N.land b 31) 1 128 191)
  else if in_range 224 239 b then
    ([], mkU (N.land b 15) 2 (if b =? 224 then 160 else 128)
             (if b =? 237 then 159 else 191))
  else if in_range 240 244 b then
    ([], mkU (N.land b 7) 3 (if b =? 240 then 144 else 128)
             (if b =? 244 then 143 else 191))
  else ([65533], utf8_idle).

Fixpoint utf8_decode (bs : list N) (st : utf8_state) : list N :=
  match bs with
  | [] => match bytes_needed st with O => [] | S _ => [65533] end
  | b :: bs' =>
      match bytes_needed st with
      | O => let '(out, st') := utf8_lead b in out ++ utf8_decode bs' st'
      | S k =>
          if in_range (lower_boundary st) (upper_boundary st) b then
            let cp := N.lor (N.shiftl (code_point st) 6) (N.land b 63) in
            match k with
            | O => cp :: utf8_decode bs' utf8_idle
            | S _ => utf8_decode bs' (mkU cp k 128 191)
            end
          else
            let '(out, st') := utf8_lead b in
            65533 :: out ++ utf8_decode bs' st'
      end
  end.

Definition utf16_units (cp : N) : jsstring :=
  if cp <? 65536 then [cp]
  else [55296 + N.shiftr (cp - 65536) 10; 56320 + N.land (cp - 65536) 1023].

Definition Buffer_toString (buf : Buffer) : jsstring :=
  flat_map utf16_units (utf8_decode (List.map Byte.to_N buf) utf8_idle).

Fixpoint code_points (s : jsstring) : list N :=
  match s with
  | [] => []
  | u :: s' =>
      if in_range 55296 56319 u then
        match s' with
        | v :: s'' =>
            if in_range 56320 57343 v
            then (65536 + N.shiftl (u - 55296) 10 + (v - 56320)) :: code_points s''
            else 65533 :: code_points s'
        | [] => [65533]
        end
      else if in_range 56320 57343 u then 65533 :: code_points s'
      else u :: code_points s'
  end.

Definition utf8_bytes (cp : N) : list N :=
  if cp <=? 127 then [cp]
  else if cp <=? 2047 then [N.lor 192 (N.shiftr cp 6); N.lor 128 (N.land cp 63)]
  else if cp <=? 65535 then
    [N.lor 224 (N.shiftr cp 12); N.lor 128 (N.land (N.shiftr cp 6) 63);
     N.lor 128 (N.land cp 63)]
  else
    [N.lor 240 (N.shiftr cp 18); N.lor 128 (N.land (N.shiftr cp 12) 63);
     N.lor 128 (N.land (N.shiftr cp 6) 63); N.lor 128 (N.land cp 63)].

Definition byte_of_N (n : N) : Byte.byte :=
  match Byte.of_N (N.land n 255) with Some b => b | None => Byte.x00 end.

Definition Buffer_from (s : jsstring) : Buffer :=
  List.map byte_of_N (flat_map utf8_bytes (code_points s)).

(** ** The output file name *)

(** How a pattern with the [i] flag compares code units: a to z count as
    A to Z.  A code unit beyond ASCII never counts as an ASCII one. *)
Definition canonicalize (u : N) : N :=
  if in_range 97 122 u then u - 32 else u.

Definition ci_eqb (a b : jsstring) : bool :=
  str_eqb (List.map canonicalize a) (List.map canonicalize b).

(** [s.replace(re, repl)] for a pattern [re] that is the literal [suffix],
    anchored at the end of the string, with the [i] flag: a string with no
    such ending is returned as it is. *)
Definition replace_suffix_ci (s suffix repl : jsstring) : jsstring :=
  let n := (length s - length suffix)%nat in
  if ci_eqb (List.skipn n s) suffix then List.firstn n s ++ repl else s.

(** ** createExport *)

(** The argument [file], by the cases the source tells apart. *)
Inductive file_arg :=
| FileBuffer (b : Buffer)            (* [Buffer.isBuffer(file)] *)
| FileString (path : jsstring)       (* [typeof file === "string"] *)
| FileHolder (payload : option Buffer)
    (* an object with a truthy [buffer]; [Some b] when [Buffer.from] turns
       it into [b], [None] when [Buffer.from] rejects it *)
| FileOther (truthy : bool).
    (* anything else: [undefined], [null], a number, an object without
       [buffer] *)

(** [!file] is false for every object and for every string but the empty
    one. *)
Definition file_truthy (file : file_arg) : bool :=
  match file with
  | FileBuffer _ => true
  | FileString path => str_truthy path
  | FileHolder _ => true
  | FileOther b => b
  end.

Inductive result :=
| Success (filename : jsstring) (buffer : Buffer) (rowCount : Z)
          (data : list (list cell))
| Failure (error : jsstring).

(** What can be thrown inside [createExport]. *)
Inductive exn :=
| TypeError
| ReadError (path : jsstring)
| XlsxError.

Inductive outcome (A : Type) :=
| Return (a : A)
| Throw (e : exn).
Arguments Return {A} a.
Arguments Throw {A} e.

(** The calls [createExport] makes to read, parse, transform and write
    the table, in the order it makes them.  [Call_Buffer_from] is the
    conversion of [file.buffer]; there is one [Call_rowToCSV] for each row
    written.  Console output is not part of the model. *)
Inductive event :=
| Call_readFileSync (path : jsstring)
| Call_Buffer_from
| Call_XLSX_read
| Call_parseCSV
| Call_transformData
| Call_XLSX_write
| Call_rowToCSV.

(** A computation: the calls made, and a value or an exception. *)
Definition M (A : Type) : Type := list event * outcome A.

Definition ret {A} (a : A) : M A := ([], Return a).
Definition throw {A} (e : exn) : M A := ([], Throw e).
Definition call (ev : event) : M unit := ([ev], Return tt).
Definition calls (evs : list event) : M unit := (evs, Return tt).
Definition bind {A B} (m : M A) (f : A -> M B) : M B :=
  match m with
  | (t, Return a) => let '(t', r) := f a in (t ++ t', r)
  | (t, Throw e) => (t, Throw e)
  end.

Notation "m ;;; k" := (bind m (fun _ => k))
  (at level 200, k at level 200, right associativity).

(** What [createExport] uses of its surroundings. *)
Record runtime := mkRuntime {
  (** [fs.readFileSync(path)]; [None] when it throws *)
  readFileSync : jsstring -> option Buffer;
  (** [XLSX.read], then [sheet_to_json] with [header: 1] on the first
      sheet: rows that may have holes; [None] when the library throws *)
  XLSX_rows : Buffer -> option (list (list (option cell)));
  (** [book_new], [aoa_to_sheet], [book_append_sheet], [XLSX.write] *)
  XLSX_write : list (list cell) -> Buffer
}.

(** The two constants computed from the file name. *)
Definition isXlsx (filename : jsstring) : bool :=
  endsWith (toLowerCase filename) (js ".xlsx").
Definition isCsv (filename : jsstring) : bool :=
  endsWith (toLowerCase filename) (js ".csv").

(** The end of [createExport], from [transformData] on. *)
Definition generate (rt : runtime) (isXlsx : bool) (filename : jsstring)
    (rows : list (list (option cell))) : M result :=
  call Call_transformData ;;;
  let transformedData := transformData rows in
  if (0 <? length transformedData)%nat then
    if isXlsx then
      call Call_XLSX_write ;;;
      let outputBuffer := XLSX_write rt transformedData in
      let outputFilename := replace_suffix_ci filename (js ".xlsx") (js "-export.xlsx") in
      ret (Success outputFilename outputBuffer
             (Z.of_nat (length transformedData) - 1) transformedData)
    else
      calls (List.map (fun _ => Call_rowToCSV) transformedData) ;;;
      let csvOutput := tableToCSV transformedData in
      let outputBuffer := Buffer_from csvOutput in
      let outputFilename := replace_suffix_ci filename (js ".csv") (js "-export.csv") in
      ret (Success outputFilename outputBuffer
             (Z.of_nat (length transformedData) - 1) transformedData)
  else ret (Failure (js "No data to export")).

(** The middle of [createExport]: reading the rows of [fileBuffer]. *)
Definition read_rows (rt : runtime) (isXlsx isCsv : bool) (filename : jsstring)
    (fileBuffer : Buffer) : M result :=
  if isXlsx then
    call Call_XLSX_read ;;;
    match XLSX_rows rt fileBuffer with
    | Some rows => generate rt isXlsx filename rows
    | None => throw XlsxError
    end
  else if isCsv then
    call Call_parseCSV ;;;
    let csvContent := Buffer_toString fileBuffer in
    generate rt isXlsx filename (csv_table (parseCSV csvContent))
  else ret (Failure (js "Unsupported file format")).

(** [filename] is [None] when the caller passed no string ([undefined] or
    [null]): [filename.toLowerCase()] then throws a [TypeError]. *)
Definition createExport (rt : runtime) (file : file_arg)
    (filename : option jsstring) : M result :=
  if negb (file_truthy file) then ret (Failure (js "No file provided"))
  else
    match filename with
    | None => throw TypeError
    | Some filename =>
        let isXlsx := isXlsx filename in
        let isCsv := isCsv filename in
        match file with
        | FileBuffer b => read_rows rt isXlsx isCsv filename b
        | FileString path =>
            call (Call_readFileSync path) ;;;
            match readFileSync rt path with
            | Some b => read_rows rt isXlsx isCsv filename b
            | None => throw (ReadError path)
            end
        | FileHolder payload =>
            call Call_Buffer_from ;;;
            match payload with
            | Some b => read_rows rt isXlsx isCsv filename b
            | None => throw TypeError
            end
        | FileOther _ => ret (Failure (js "Invalid file format"))
        end
    end.

(** ** Vocabulary of the statements *)

(** The bytes a [file] argument stands for, when it stands for some. *)
Definition file_bytes (rt : runtime) (file : file_arg) : option Buffer :=
  match file with
  | FileBuffer b => Some b
  | FileString path => if str_truthy path then readFileSync rt path else None
  | FileHolder payload => payload
  | FileOther _ => None
  end.

(** The parsed table of an input, when the input has one. *)
Definition parsed_rows (rt : runtime) (file : file_arg) (filename : jsstring)
    : option (list (list (option cell))) :=
  match file_bytes rt file with
  | Some b =>
      if isXlsx filename then XLSX_rows rt b
      else if isCsv filename
           then Some (csv_table (parseCSV (Buffer_toString b)))
           else None
  | None => None
  end.

(** The position of the first cell equal to [x]. *)
Fixpoint index_of (x : jsstring) (l : list jsstring) : option nat :=
  match l with
  | [] => None
  | y :: l' => if str_eqb y x then Some O else option_map S (index_of x l')
  end.

(** A row whose cell in column [k] is empty or made of white space only;
    a row too short to have the cell counts as having an empty one. *)
Definition blank_sku (k : nat) (row : list jsstring) : bool :=
  match nth_error row k with
  | Some s => forallb isWhiteSpace s
  | None => true
  end.

(** The code units of the two suffixes: a dot or a lower-case letter. *)
Definition suffix_unit (p : N) : Prop := p = 46 \/ (97 <= p <= 122).

(** The output name and the output bytes of a successful export. *)
Definition export_name (xlsx : bool) (filename : jsstring) : jsstring :=
  if xlsx then replace_suffix_ci filename (js ".xlsx") (js "-export.xlsx")
  else replace_suffix_ci filename (js ".csv") (js "-export.csv").

Definition export_bytes (rt : runtime) (xlsx : bool) (table : list (list cell))
    : Buffer :=
  if xlsx then XLSX_write rt table else Buffer_from (tableToCSV table).

(** The calls that parse. *)
Definition is_parse_call (ev : event) : bool :=
  match ev with
  | Call_XLSX_read | Call_parseCSV => true
  | _ => false
  end.

(** The scenario of the specification: the CSV text, the table exported
    from it and the CSV text written for that table. *)
Definition scenario_input : jsstring :=
  js "Handle,Variant SKU,Google Category" ++ [LF] ++ js "h1,SKU1,Cat" ++ [LF]
  ++ js "h2,,Cat2" ++ [LF].

Definition scenario_data : list (list cell) :=
  [[CStr (js "Handle"); CStr (js "Variant SKU")];
   [CStr (js "h1"); CStr (js "SKU1")]].

Definition scenario_output : jsstring :=
  js "Handle,Variant SKU" ++ [LF] ++ js "h1,SKU1".

(** A CSV text with a header and no SKU column. *)
Definition no_sku_input : jsstring :=
  js "Handle,Title" ++ [LF] ++ js "h1,Shirt" ++ [LF].

(** A CSV text with a SKU column, two rows with a SKU, one with a blank
    SKU and one too short to have one. *)
Definition ragged_input : jsstring :=
  js "Handle,Variant SKU,Title" ++ [LF] ++ js "h1,S1,A" ++ [LF]
  ++ js "h2, ,B" ++ [LF] ++ js "h3" ++ [LF] ++ js "h4,S4,D".

(** A table whose cells need every quoting rule. *)
Definition quoting_table : list (list jsstring) :=
  [[js "a,b"; js "say " ++ [DQUOTE] ++ js "hi" ++ [DQUOTE]; []];
   [js "two" ++ [LF] ++ js "lines"; js "cr" ++ [CR]];
   [js "plain"]].

(** A table with a row made of one empty cell. *)
Definition blank_row_table : list (list jsstring) :=
  [[js "a"]; [[]]; [js "b"]].

(** A table in which the same handle and SKU come twice. *)
Definition repeated_rows : list (list (option cell)) :=
  csv_table [[js "Handle"; js "Variant SKU"]; [js "h1"; js "S1"];
             [js "h1"; js "S1"]].

(** A runtime with no file and no workbook, for the examples. *)
Definition bare_runtime : runtime :=
  mkRuntime (fun _ => None) (fun _ => None) (fun _ => []).

(** ** More vocabulary: line endings and columns *)

(** The two code units that end a record. *)
Definition is_terminator (u : N) : bool := (u =? LF) || (u =? CR).

(** A CSV text written line by line: each row as [rowToCSV] writes it,
    followed by the line ending given with it. *)
Definition csv_lines (lines : list (list jsstring * jsstring)) : jsstring :=
  flat_map (fun l => rowToCSV (List.map CStr (fst l)) ++ snd l) lines.

(** A line that gives a record: a row that can be one, and a line ending
    of one or more terminators. *)
Definition ended_line (l : list jsstring * jsstring) : Prop :=
  recordable (fst l) /\ snd l <> [] /\ forallb is_terminator (snd l) = true.

(** The last line of a text, which may come with no line ending. *)
Definition csv_last_line (last : option (list jsstring)) : jsstring :=
  match last with
  | Some r => rowToCSV (List.map CStr r)
  | None => []
  end.

(** Column pruning read column by column: a cell of [row] is kept unless
    the header cell above it starts with a listed prefix; a hole of the row
    gives no cell; a cell with a hole or nothing above it is kept. *)
Fixpoint keep_cols (headers row : list (option cell)) : list cell :=
  match row with
  | [] => []
  | c :: row' =>
      let rest := keep_cols (tl headers) row' in
      match c with
      | None => rest
      | Some v =>
          match headers with
          | Some h :: _ => if has_listed_prefix (String_ h) then rest else v :: rest
          | _ => v :: rest
          end
      end
  end.

(** Whether the header cell at position [j] exists and starts with a
    listed prefix. *)
Definition prefixed_at (headers : list (option cell)) (j : nat) : bool :=
  match nth_error headers j with
  | Some (Some h) => has_listed_prefix (String_ h)
  | _ => false
  end.

Definition is_CStr (c : cell) : bool :=
  match c with CStr _ => true | CPrim _ _ => false end.

(** ** The route that serves the export ([app/routes/app._index.jsx]) *)

(** The type the page gives to the blob it offers for download: decided by
    [filename.endsWith(".xlsx")], letter case included. *)
Definition download_type (filename : jsstring) : jsstring :=
  if endsWith filename (js ".xlsx")
  then js "application/vnd.openxmlformats-officedocument.spreadsheetml.sheet"
  else js "text/csv".

(** A row of the [ExportHistory] table. *)
Record exportHistory := mkHistory {
  id : jsstring;
  shop : jsstring;
  h_filename : jsstring;
  originalFilename : jsstring;
  h_rowCount : Z;
  fileBuffer : Buffer;
  createdAt : Z
}.

(** What [formData.get] gives for a field: [null], a string or a file with
    its name and its bytes. *)
Inductive entry :=
| NoEntry
| TextEntry (s : jsstring)
| FileEntry (name : jsstring) (content : Buffer).

(** A request as the action reads it, once [request.formData()] has given
    its fields.  [session] is the shop of the session [authenticate.admin]
    returns, [None] when it throws instead.  [new_id] and [created_at] are
    what the database gives a row created during the request,
    [sevenDaysAgo] the date the action computes after that. *)
Record request := mkRequest {
  session : option jsstring;
  actionType : entry;
  historyId : entry;
  productFile : entry;
  new_id : jsstring;
  created_at : Z;
  sevenDaysAgo : Z
}.

(** The object the action returns; [buffer] is an array of numbers. *)
Inductive answer :=
| Downloaded (filename : jsstring) (buffer : list N) (rowCount : Z)
| Exported (filename : jsstring) (buffer : list N) (rowCount : Z)
           (data : list (list cell))
| Failed (error : jsstring).

(** The exceptions the model follows.  The source can throw for other
    reasons too (a body that is not form data, a database call that fails
    on its own): the model covers the runs in which those calls return,
    and nothing is stated about the other runs. *)
Inductive fault :=
| Unauthenticated            (* [authenticate.admin] threw *)
| NotAFile                   (* [productFile.arrayBuffer] is not a function *)
| BadQuery                   (* [findUnique] got an id that is not a string *)
| DuplicateId                (* [create] met a row with the same id *)
| FromExport (e : exn).      (* [createExport] threw *)

Inductive reply :=
| Reply (a : answer)
| Raise (f : fault).

(** [Array.from(buffer)] *)
Definition Array_from (buffer : Buffer) : list N := List.map Byte.to_N buffer.

(** [v === s] for a form field [v] and a string [s]. *)
Definition entry_is (v : entry) (s : jsstring) : bool :=
  match v with TextEntry t => str_eqb t s | _ => false end.

(** [db.exportHistory.findUnique({ where: { id } })] *)
Definition findUnique (db : list exportHistory) (key : jsstring)
    : option exportHistory :=
  List.find (fun h => str_eqb (id h) key) db.

(** [db.exportHistory.deleteMany] for the rows of [shop_] created before
    [before]: the rows that stay. *)
Definition deleteMany (db : list exportHistory) (shop_ : jsstring) (before : Z)
    : list exportHistory :=
  List.filter (fun h => negb (str_eqb (shop h) shop_ && (createdAt h <? before)%Z)) db.

Module Route.

(** The action of the route with the history: the reply and the table
    after it. *)
Definition action (rt : runtime) (db : list exportHistory) (req : request)
    : reply * list exportHistory :=
  match session req with
  | None => (Raise Unauthenticated, db)
  | Some session_shop =>
      if entry_is (actionType req) (js "download") then
        match historyId req with
        | TextEntry key =>
            match findUnique db key with
            | Some historyItem =>
                if negb (str_eqb (shop historyItem) session_shop)
                then (Reply (Failed (js "Export not found")), db)
                else (Reply (Downloaded (h_filename historyItem)
                               (Array_from (fileBuffer historyItem))
                               (h_rowCount historyItem)), db)
            | None => (Reply (Failed (js "Export not found")), db)
            end
        | _ => (Raise BadQuery, db)
        end
      else
        match productFile req with
        | NoEntry => (Reply (Failed (js "No file provided")), db)
        | TextEntry s =>
            if str_truthy s then (Raise NotAFile, db)
            else (Reply (Failed (js "No file provided")), db)
        | FileEntry name content =>
            match snd (createExport rt (FileBuffer content) (Some name)) with
            | Throw e => (Raise (FromExport e), db)
            | Return (Failure error) => (Reply (Failed error), db)
            | Return (Success filename buffer rowCount data) =>
                match findUnique db (new_id req) with
                | Some _ => (Raise DuplicateId, db)
                | None =>
                    let created :=
                      mkHistory (new_id req) session_shop filename name
                        rowCount buffer (created_at req) in
                    (Reply (Exported filename (Array_from buffer) rowCount data),
                     deleteMany (db ++ [created]) session_shop (sevenDaysAgo req))
                end
            end
        end
  end.

End Route.

Module PlainRoute.

(** The action of the route without the history (the second version of
    the page): it reads [productFile] only. *)
Definition action (rt : runtime) (req : request) : reply :=
  match session req with
  | None => Raise Unauthenticated
  | Some _ =>
      match productFile req with
      | NoEntry => Reply (Failed (js "No file provided"))
      | TextEntry s =>
          if str_truthy s then Raise NotAFile
          else Reply (Failed (js "No file provided"))
      | FileEntry name content =>
          match snd (createExport rt (FileBuffer content) (Some name)) with
          | Throw e => Raise (FromExport e)
          | Return (Failure error) => Reply (Failed error)
          | Return (Success filename buffer rowCount data) =>
              Reply (Exported filename (Array_from buffer) rowCount data)
          end
      end
  end.

End PlainRoute.

(** A request that uploads the scenario, and the request that asks for it
    back. *)
Definition upload_request : request :=
  mkRequest (Some (js "a.myshopify.com")) (TextEntry (js "upload")) NoEntry
    (FileEntry (js "products.csv") (Buffer_from scenario_input))
    (js "id-1") 100 93.

Definition download_request : request :=
  mkRequest (Some (js "a.myshopify.com")) (TextEntry (js "download"))
    (TextEntry (js "id-1")) NoEntry (js "id-2") 101 94.

(** A row of another shop, old enough to be deleted if it were of this
    one. *)
Definition foreign_row : exportHistory :=
  mkHistory (js "id-0") (js "b.myshopify.com") (js "x-export.csv") (js "x.csv")
    3 [] 5.

(** A table without holes, as the table the source works on. *)
Definition dense (t : list (list cell)) : list (list (option cell)) :=
  List.map (List.map Some) t.





(** The table after the upload request, starting from the row of the
    other shop. *)
Definition stored_table : list exportHistory :=
  snd (Route.action bare_runtime [foreign_row] upload_request).

(** A text with blank lines and every kind of line ending. *)
Definition mixed_endings : list (list jsstring * jsstring) :=
  [([js "a"; js "b"], [CR; LF]); ([js "c"], [LF; LF]); ([[]; js "d"], [CR])].

Example parse_sample :
  parseCSV (js "a," ++ [DQUOTE] ++ js "b," ++ [DQUOTE; DQUOTE] ++ js "c"
            ++ [DQUOTE] ++ js ",d" ++ [LF] ++ js "e" ++ [CR; LF] ++ js "f,")
  = [[js "a"; js "b," ++ [DQUOTE] ++ js "c"; js "d"]; [js "e"]; [js "f"; []]].
Proof. vm_compute. reflexivity. Qed.

Example transform_sample :
  transformData (csv_table (parseCSV scenario_input)) = scenario_data.
Proof. vm_compute. reflexivity. Qed.

Example export_sample :
  createExport bare_runtime (FileBuffer (Buffer_from scenario_input))
    (Some (js "products.CSV"))
  = ([Call_parseCSV; Call_transformData; Call_rowToCSV; Call_rowToCSV],
     Return (Success (js "products-export.csv") (Buffer_from scenario_output)
               1 scenario_data)).
Proof. vm_compute. reflexivity. Qed.

Example repeated_sample :
  transformData repeated_rows
  = [[CStr (js "Handle"); CStr (js "Variant SKU")];
     [CStr (js "h1"); CStr (js "S1")]; [CStr (js "h1"); CStr (js "S1")]].
Proof. vm_compute. reflexivity. Qed.

Example all_columns_pruned_sample :
  transformData (csv_table (parseCSV
    (js "Google Category,Option1 Name" ++ [LF] ++ js "Cat,Size")))
  = [[]].
Proof. vm_compute. reflexivity. Qed.

Example hole_moves_cells_left :
  transformData
    [[Some (CStr (js "Handle")); Some (CStr (js "Title"));
      Some (CStr (js "Variant SKU"))];
     [Some (CStr (js "h1")); None; Some (CStr (js "S1"))]]
  = [[CStr (js "Handle"); CStr (js "Title"); CStr (js "Variant SKU")]].
Proof. vm_compute. reflexivity. Qed.

Example utf8_sample :
  Buffer_toString (List.map byte_of_N [104; 195; 169; 226; 130; 172; 240; 159; 152; 128; 255; 33])
  = [104; 233; 8364; 55357; 56832; 65533; 33].
Proof. vm_compute. reflexivity. Qed.

(** * Properties *)

(** ** Steps of the CSV parser *)

Lemma step_quote_pair rs cr fld :
  step DQUOTE (Some DQUOTE) (mkP rs cr fld true)
  = (mkP rs cr (fld ++ [DQUOTE]) true, true).
Proof. reflexivity. Qed.

Lemma step_quote_toggle nextChar rs cr fld q :
  q && opt_is nextChar DQUOTE = false ->
  step DQUOTE nextChar (mkP rs cr fld q) = (mkP rs cr fld (negb q), false).
Proof. intros H. unfold step. cbn. rewrite H. reflexivity. Qed.

Lemma step_inside u nextChar rs cr fld :
  u <> DQUOTE ->
  step u nextChar (mkP rs cr fld true) = (mkP rs cr (fld ++ [u]) true, false).
Proof.
  intros H. unfold step. cbn.
  destruct (N.eqb_spec u DQUOTE) as [E|_]; [contradiction|].
  rewrite !andb_false_r. reflexivity.
Qed.

Lemma needs_quoting_cons u s :
  needs_quoting (u :: s) = false ->
  (u <> COMMA /\ u <> DQUOTE /\ u <> LF /\ u <> CR) /\ needs_quoting s = false.
Proof.
  unfold needs_quoting, includes. cbn [existsb].
  rewrite !orb_false_iff. intros [[[[H1 H1'] [H2 H2']] [H3 H3']] [H4 H4']].
  rewrite H1', H2', H3', H4'. repeat split; trivial;
    intros ->; discriminate.
Qed.

Lemma step_plain u nextChar rs cr fld :
  u <> COMMA -> u <> DQUOTE -> u <> LF -> u <> CR ->
  step u nextChar (mkP rs cr fld false) = (mkP rs cr (fld ++ [u]) false, false).
Proof.
  intros Hc Hq Hl Hr. unfold step. cbn.
  destruct (N.eqb_spec u DQUOTE); [contradiction|].
  destruct (N.eqb_spec u COMMA); [contradiction|].
  destruct (N.eqb_spec u LF); [contradiction|].
  destruct (N.eqb_spec u CR); [contradiction|].
  reflexivity.
Qed.

(** An unquoted field is read code unit by code unit. *)
Lemma parse_plain f : forall rest rs cr fld,
  needs_quoting f = false ->
  parse_loop (f ++ rest) (mkP rs cr fld false)
  = parse_loop rest (mkP rs cr (fld ++ f) false).
Proof.
  induction f as [|u f IH]; intros rest rs cr fld Hf.
  - now rewrite app_nil_r.
  - apply needs_quoting_cons in Hf as [(Hc & Hq & Hl & Hr) Hf].
    cbn [app parse_loop]. rewrite step_plain by assumption.
    rewrite IH by assumption. now rewrite <- app_assoc.
Qed.

(** The inside of a quoted field, up to the quote that closes it. *)
Lemma parse_escaped f : forall rest rs cr fld,
  opt_is (head rest) DQUOTE = false ->
  parse_loop (double_quotes f ++ DQUOTE :: rest) (mkP rs cr fld true)
  = parse_loop rest (mkP rs cr (fld ++ f) false).
Proof.
  induction f as [|u f IH]; intros rest rs cr fld Hrest.
  - cbn [double_quotes app parse_loop].
    rewrite step_quote_toggle by (now rewrite Hrest).
    now rewrite app_nil_r.
  - cbn [double_quotes]. destruct (N.eqb_spec u DQUOTE) as [->|Hu].
    + cbn [app parse_loop head]. rewrite step_quote_pair.
      rewrite IH by assumption. now rewrite <- app_assoc.
    + cbn [app parse_loop]. rewrite step_inside by assumption.
      rewrite IH by assumption. now rewrite <- app_assoc.
Qed.

Lemma parse_quoted f rest rs cr fld :
  opt_is (head rest) DQUOTE = false ->
  parse_loop (quoted f ++ rest) (mkP rs cr fld false)
  = parse_loop rest (mkP rs cr (fld ++ f) false).
Proof.
  intros Hrest. unfold quoted. cbn [app parse_loop].
  rewrite step_quote_toggle by reflexivity.
  rewrite <- app_assoc. cbn [app negb]. now apply parse_escaped.
Qed.

Lemma parse_field f rest rs cr fld :
  opt_is (head rest) DQUOTE = false ->
  parse_loop (fieldToCSV (CStr f) ++ rest) (mkP rs cr fld false)
  = parse_loop rest (mkP rs cr (fld ++ f) false).
Proof.
  intros Hrest. unfold fieldToCSV. cbn [String_].
  destruct (needs_quoting f) eqn:E.
  - now apply parse_quoted.
  - now apply parse_plain.
Qed.

(** ** Rows and tables through the parser *)

Lemma join_cons sep x y l :
  join sep (x :: y :: l) = x ++ sep ++ join sep (y :: l).
Proof. reflexivity. Qed.

Lemma step_comma nextChar rs cr fld :
  step COMMA nextChar (mkP rs cr fld false) = (mkP rs (cr ++ [fld]) [] false, false).
Proof. reflexivity. Qed.

Lemma step_newline nextChar st :
  insideQuotes st = false ->
  step LF nextChar st = (if pending st then push_record st else st, false).
Proof. intros H. unfold step. cbn. rewrite H. reflexivity. Qed.

(** A serialized row leaves its last cell as the pending field and the
    cells before it in the pending row. *)
Lemma parse_row init : forall f rest rs cr,
  opt_is (head rest) DQUOTE = false ->
  parse_loop (rowToCSV (List.map CStr (init ++ [f])) ++ rest) (mkP rs cr [] false)
  = parse_loop rest (mkP rs (cr ++ init) f false).
Proof.
  unfold rowToCSV.
  induction init as [|g init IH]; intros f rest rs cr Hrest.
  - cbn [app List.map join]. rewrite parse_field by assumption.
    now rewrite app_nil_r.
  - destruct (List.map fieldToCSV (List.map CStr (init ++ [f]))) as [|y l] eqn:E.
    { destruct init; discriminate E. }
    cbn [app List.map]. rewrite E, join_cons, <- !app_assoc.
    rewrite parse_field by reflexivity.
    cbn [app parse_loop]. rewrite step_comma.
    rewrite <- E, IH by assumption.
    now rewrite <- app_assoc.
Qed.

Lemma recordable_split r :
  recordable r ->
  exists init f, r = init ++ [f] /\ pending (mkP [] init f false) = true.
Proof.
  intros [Hne Hblank].
  destruct (exists_last Hne) as (init & f & ->).
  exists init, f. split; [reflexivity|].
  unfold pending. cbn.
  destruct f; [|reflexivity]. destruct init; [|reflexivity].
  now contradiction Hblank.
Qed.

Lemma pending_rows rs rs' cr fld q q' :
  pending (mkP rs cr fld q) = pending (mkP rs' cr fld q').
Proof. reflexivity. Qed.

(** A serialized row and the newline after it add the row to [rows]. *)
Lemma parse_line r rest rs :
  recordable r ->
  parse_loop (rowToCSV (List.map CStr r) ++ LF :: rest) (mkP rs [] [] false)
  = parse_loop rest (mkP (rs ++ [r]) [] [] false).
Proof.
  intros Hr. destruct (recordable_split r Hr) as (init & f & -> & Hp).
  rewrite parse_row by reflexivity.
  cbn [parse_loop app]. rewrite step_newline by reflexivity.
  rewrite (pending_rows rs [] _ _ false false), Hp. reflexivity.
Qed.

Lemma parse_last_line r rs :
  recordable r ->
  finish (parse_loop (rowToCSV (List.map CStr r)) (mkP rs [] [] false)) = rs ++ [r].
Proof.
  intros Hr. destruct (recordable_split r Hr) as (init & f & -> & Hp).
  rewrite <- (app_nil_r (rowToCSV _)), parse_row by reflexivity.
  cbn [parse_loop app]. unfold finish.
  rewrite (pending_rows rs [] _ _ false false), Hp. reflexivity.
Qed.

Lemma parse_table t : forall rs,
  Forall recordable t ->
  finish (parse_loop (tableToCSV (List.map (List.map CStr) t)) (mkP rs [] [] false))
  = rs ++ t.
Proof.
  unfold tableToCSV.
  induction t as [|r t IH]; intros rs Ht.
  - cbn. now rewrite app_nil_r.
  - inversion Ht as [|? ? Hr Ht']; subst.
    destruct t as [|r2 t].
    + cbn [List.map join]. now apply parse_last_line.
    + change (List.map rowToCSV (List.map (List.map CStr) (r :: r2 :: t)))
        with (rowToCSV (List.map CStr r)
              :: List.map rowToCSV (List.map (List.map CStr) (r2 :: t))).
      cbn [List.map] in *. rewrite join_cons. cbn [app].
      rewrite parse_line by assumption.
      rewrite IH by assumption. now rewrite <- app_assoc.
Qed.

(** ** Lookahead of the parser *)

(** The code unit after [char] matters only when it is a quote character
    or a line feed. *)
Lemma step_lookahead char nextChar st :
  opt_is nextChar DQUOTE = false -> opt_is nextChar LF = false ->
  step char nextChar st = step char None st.
Proof.
  intros Hq Hl. unfold step. cbn [opt_is]. rewrite Hq, Hl. reflexivity.
Qed.

Lemma step_None_noskip char st : snd (step char None st) = false.
Proof.
  unfold step. cbn [opt_is]. rewrite !andb_false_r.
  repeat (match goal with |- context [if ?b then _ else _] => destruct b end);
    reflexivity.
Qed.

Lemma parse_loop_single char st : parse_loop [char] st = fst (step char None st).
Proof.
  cbn [parse_loop head]. pose proof (step_None_noskip char st) as H.
  destruct (step char None st) as [st' skip]. cbn in *. now subst.
Qed.

Lemma parse_loop_app_len n : forall c t st,
  (length c <= n)%nat ->
  opt_is (head t) DQUOTE = false -> opt_is (head t) LF = false ->
  parse_loop (c ++ t) st = parse_loop t (parse_loop c st).
Proof.
  induction n as [|n IH]; intros c t st Hlen Hq Hl.
  - destruct c; [reflexivity | cbn in Hlen; lia].
  - destruct c as [|u [|v c]]; [reflexivity| |].
    + rewrite parse_loop_single. cbn [app parse_loop].
      rewrite step_lookahead by assumption.
      pose proof (step_None_noskip u st) as H.
      destruct (step u None st) as [st' skip]. cbn in *. now subst.
    + cbn [app parse_loop head].
      destruct (step u (Some v) st) as [st' [|]].
      * apply IH; trivial. cbn in Hlen. lia.
      * apply (IH (v :: c)); trivial. cbn in *. lia.
Qed.

(** Parsing goes on after a prefix from the state the prefix leaves, when
    what follows does not start with a quote character or a line feed. *)
Lemma parse_loop_app c t st :
  opt_is (head t) DQUOTE = false -> opt_is (head t) LF = false ->
  parse_loop (c ++ t) st = parse_loop t (parse_loop c st).
Proof. now apply (parse_loop_app_len (length c)). Qed.

Lemma finish_newline st :
  insideQuotes st = false -> finish (parse_loop [LF] st) = finish st.
Proof.
  intros H. rewrite parse_loop_single, step_newline by assumption.
  cbn [fst]. unfold finish. destruct (pending st) eqn:E; [|now rewrite E].
  reflexivity.
Qed.

Lemma step_LF_state char st :
  fst (step char (Some LF) st) = fst (step char None st).
Proof.
  unfold step. cbn [opt_is].
  replace (LF =? DQUOTE) with false by reflexivity.
  repeat (match goal with |- context [if ?b then _ else _] => destruct b end);
    reflexivity.
Qed.

Lemma final_newline_len n : forall c st,
  (length c <= n)%nat ->
  insideQuotes (parse_loop c st) = false ->
  finish (parse_loop (c ++ [LF]) st) = finish (parse_loop c st).
Proof.
  induction n as [|n IH]; intros c st Hlen Hq.
  - destruct c; [now apply finish_newline | cbn in Hlen; lia].
  - destruct c as [|u [|v c]]; [now apply finish_newline| |].
    + rewrite parse_loop_single in *. cbn [app parse_loop head].
      pose proof (step_LF_state u st) as Hs.
      destruct (step u (Some LF) st) as [st' skip]. cbn [fst] in Hs. subst st'.
      destruct skip; [reflexivity|]. now apply finish_newline.
    + cbn [app parse_loop head] in *.
      destruct (step u (Some v) st) as [st' [|]].
      * apply IH; trivial. cbn in Hlen. lia.
      * apply (IH (v :: c)); trivial. cbn in *. lia.
Qed.

(** ** The rows the parser gives *)

Lemma pending_recordable st :
  pending st = true -> recordable (currentRow st ++ [currentField st]).
Proof.
  unfold pending, recordable. destruct st as [rs cr fld q]. cbn.
  intros H. split.
  - intros E. now apply app_eq_nil in E as [_ [=]].
  - destruct cr as [|c [|c' cr]]; cbn.
    + destruct fld; [discriminate H|discriminate].
    + discriminate.
    + discriminate.
Qed.

Lemma step_rows_recordable char nextChar st :
  Forall recordable (rows st) ->
  Forall recordable (rows (fst (step char nextChar st))).
Proof.
  intros Inv. unfold step.
  repeat (match goal with |- context [if ?b then _ else _] => destruct b eqn:? end);
    cbn; trivial.
  apply Forall_app. split; [exact Inv|].
  constructor; [|constructor]. now apply pending_recordable.
Qed.

(** Every row in [rows] has been pending: an invariant of the loop. *)
Lemma parse_loop_rows_recordable n : forall content st,
  (length content <= n)%nat ->
  Forall recordable (rows st) ->
  Forall recordable (rows (parse_loop content st)).
Proof.
  induction n as [|n IH]; intros content st Hlen Inv.
  - destruct content; [exact Inv | cbn in Hlen; lia].
  - destruct content as [|u rest]; [exact Inv|].
    cbn [parse_loop].
    pose proof (step_rows_recordable u (head rest) st Inv) as Inv'.
    destruct (step u (head rest) st) as [st' skip]. cbn [fst] in Inv'.
    cbn in Hlen. destruct skip.
    + destruct rest as [|v rest']; [exact Inv'|].
      apply IH; [cbn in Hlen; lia|exact Inv'].
    + apply IH; [lia|exact Inv'].
Qed.

Lemma parseCSV_recordable content : Forall recordable (parseCSV content).
Proof.
  unfold parseCSV, finish.
  pose proof (parse_loop_rows_recordable (length content) content
                (mkP [] [] [] false) (Nat.le_refl _)
                (List.Forall_nil recordable)) as Inv.
  destruct (pending (parse_loop content (mkP [] [] [] false))) eqn:Hp; [|exact Inv].
  cbn. apply Forall_app. split; [exact Inv|].
  constructor; [|constructor]. now apply pending_recordable.
Qed.

(** ** The claims on the CSV parser and serializer *)

(** C6.  Inside a quoted field a doubled quote character gives one quote
    character of the field, and a comma, a line feed or a carriage return
    is a character of the field like any other: it ends neither the field
    nor the record.  So a quoted field, met outside quotes in any input and
    followed by anything but a quote character, adds exactly its content to
    the pending field.  Content that no newline ends still gives the final
    record: the one the same content gives with a newline after it; for
    plain trailing text the pending row with that text ending its last
    field; and in general the pending row with the pending field, whenever
    one of them is not empty. *)
Theorem parseCSV_quoting_and_trailing_content :
  (forall rest rs cr fld,
      parse_loop (DQUOTE :: DQUOTE :: rest) (mkP rs cr fld true)
      = parse_loop rest (mkP rs cr (fld ++ [DQUOTE]) true))
  /\ (forall u rest rs cr fld,
      u = COMMA \/ u = LF \/ u = CR ->
      parse_loop (u :: rest) (mkP rs cr fld true)
      = parse_loop rest (mkP rs cr (fld ++ [u]) true))
  /\ (forall f rest rs cr fld,
      opt_is (head rest) DQUOTE = false ->
      parse_loop (quoted f ++ rest) (mkP rs cr fld false)
      = parse_loop rest (mkP rs cr (fld ++ f) false))
  /\ (forall f, f <> [] -> parseCSV (quoted f) = [[f]])
  /\ (forall content,
      insideQuotes (parse_loop content (mkP [] [] [] false)) = false ->
      parseCSV content = parseCSV (content ++ [LF]))
  /\ (forall content text,
      let st := parse_loop content (mkP [] [] [] false) in
      insideQuotes st = false -> text <> [] -> needs_quoting text = false ->
      parseCSV (content ++ text)
      = rows st ++ [currentRow st ++ [currentField st ++ text]])
  /\ (forall content,
      let st := parse_loop content (mkP [] [] [] false) in
      pending st = true ->
      parseCSV content = rows st ++ [currentRow st ++ [currentField st]]).
Proof.
  split; [|split; [|split; [|split; [|split; [|split]]]]].
  - intros. cbn [parse_loop head]. now rewrite step_quote_pair.
  - intros u rest rs cr fld Hu. cbn [parse_loop].
    rewrite step_inside; [reflexivity|].
    destruct Hu as [->|[->| ->]]; discriminate.
  - intros. now apply parse_quoted.
  - intros f Hf. unfold parseCSV.
    rewrite <- (app_nil_r (quoted f)), parse_quoted by reflexivity.
    cbn [parse_loop app]. unfold finish, pending. cbn.
    destruct f; [contradiction|reflexivity].
  - intros content Hq. unfold parseCSV. symmetry.
    now apply (final_newline_len (length content)).
  - intros content text st Hq Htext Hplain. unfold parseCSV.
    assert (Hhd : opt_is (head text) DQUOTE = false /\ opt_is (head text) LF = false).
    { destruct text as [|u text]; [contradiction|].
      apply needs_quoting_cons in Hplain as [(_ & H1 & H2 & _) _]. cbn.
      split; apply N.eqb_neq; assumption. }
    rewrite parse_loop_app by apply Hhd. fold st.
    destruct st as [rs cr fld q]. cbn in Hq. subst q.
    rewrite <- (app_nil_r text) at 1. rewrite parse_plain by assumption.
    cbn [parse_loop]. unfold finish, pending. cbn.
    destruct (fld ++ text) eqn:E; [|reflexivity].
    apply app_eq_nil in E as [_ ->]. contradiction.
  - intros content st Hp. unfold parseCSV, finish. fold st. now rewrite Hp.
Qed.

(** C7, amended.  Serializing a table of strings whose rows each have a
    cell and are not one empty cell alone, and parsing the outcome, gives
    the table back; no other table of strings comes back. *)
Theorem csv_roundtrip (t : list (list jsstring)) :
  Forall recordable t
  <-> parseCSV (tableToCSV (List.map (List.map CStr) t)) = t.
Proof.
  split.
  - intros Ht. unfold parseCSV. now rewrite parse_table.
  - intros <-. apply parseCSV_recordable.
Qed.

(** ** transformData *)

Lemma keep_loop_filter idx : forall dataRows handleMap uniqueRows,
  snd (keep_loop idx dataRows handleMap uniqueRows)
  = uniqueRows ++ List.filter (sku_present idx) dataRows.
Proof.
  induction dataRows as [|row more IH]; intros handleMap uniqueRows.
  - cbn. now rewrite app_nil_r.
  - cbn [keep_loop List.filter]. unfold sku_present at 1.
    destruct (str_truthy (trimmed_text (at_index row idx))).
    + rewrite IH, <- app_assoc. reflexivity.
    + apply IH.
Qed.

Lemma transformData_eq_spec rows : transformData rows = transformData_spec rows.
Proof.
  unfold transformData, transformData_spec.
  destruct rows as [|headers rest]; [reflexivity|].
  cbn [prune List.map hd tl]. now rewrite keep_loop_filter.
Qed.

(** ** Trimming *)

Lemma trimStart_head s u s' : trimStart s = u :: s' -> isWhiteSpace u = false.
Proof.
  induction s as [|a s IH]; cbn; [discriminate|].
  destruct (isWhiteSpace a) eqn:E; [exact IH|].
  intros [= <- _]. exact E.
Qed.

Lemma trimStart_blank s : forallb isWhiteSpace s = true -> trimStart s = [].
Proof.
  induction s as [|a s IH]; cbn; [reflexivity|].
  destruct (isWhiteSpace a); [exact IH|discriminate].
Qed.

Lemma trimStart_not_blank s : forallb isWhiteSpace s = false -> trimStart s <> [].
Proof.
  induction s as [|a s IH]; cbn; [discriminate|].
  destruct (isWhiteSpace a); [exact IH|discriminate].
Qed.

(** A trimmed string is empty exactly when the string is made of white
    space only. *)
Lemma str_truthy_trim s : str_truthy (trim s) = negb (forallb isWhiteSpace s).
Proof.
  unfold trim, trimEnd.
  destruct (forallb isWhiteSpace s) eqn:E.
  - now rewrite (trimStart_blank s E).
  - destruct (trimStart s) as [|u s'] eqn:Es.
    { now apply trimStart_not_blank in E. }
    apply trimStart_head in Es.
    assert (H : trimStart (rev (u :: s')) <> []).
    { apply trimStart_not_blank. cbn [rev]. rewrite forallb_app. cbn.
      rewrite Es. now rewrite andb_false_r. }
    destruct (trimStart (rev (u :: s'))) as [|v w]; [contradiction|].
    cbn [rev]. now destruct (rev w).
Qed.

(** ** A CSV table with no listed prefix in its header *)

Section CsvTable.

Lemma collect_indices_no_prefix headers :
  Forall (fun h => has_listed_prefix h = false) headers ->
  forall index indicesToRemove,
    collect_indices (List.map cell_of headers) index indicesToRemove
    = indicesToRemove.
Proof.
  induction 1 as [|h headers Hh _ IH]; intros index indicesToRemove.
  - reflexivity.
  - unfold cell_of in *. cbn [List.map collect_indices String_].
    rewrite Hh. apply IH.
Qed.

Lemma filter_columns_none row : forall index,
  filter_columns ∅ (List.map cell_of row) index = List.map CStr row.
Proof.
  induction row as [|s row IH]; intros index; [reflexivity|].
  unfold cell_of in *. cbn [List.map filter_columns].
  rewrite bool_decide_eq_false_2 by set_solver.
  now rewrite IH.
Qed.

Lemma prune_csv_table header data :
  Forall (fun h => has_listed_prefix h = false) header ->
  prune (csv_table (header :: data)) = List.map (List.map CStr) (header :: data).
Proof.
  intros Hh. unfold prune, csv_table.
  cbn [List.map].
  rewrite collect_indices_no_prefix by assumption.
  rewrite filter_columns_none. f_equal.
  rewrite List.map_map. apply List.map_ext. intros row.
  apply filter_columns_none.
Qed.

End CsvTable.

Lemma findIndex_from_csv header : forall i,
  findIndex_from is_variant_sku (List.map CStr header) i
  = match index_of (js "Variant SKU") header with
    | Some k => (i + Z.of_nat k)%Z
    | None => (-1)%Z
    end.
Proof.
  induction header as [|y header IH]; intros i; [reflexivity|].
  cbn [List.map findIndex_from index_of]. unfold is_variant_sku at 1. cbn [String_].
  destruct (str_eqb y (js "Variant SKU")).
  - cbn. lia.
  - rewrite IH. destruct (index_of (js "Variant SKU") header); cbn; lia.
Qed.

Lemma at_index_csv row k :
  at_index (List.map CStr row) (Z.of_nat k) = option_map CStr (nth_error row k).
Proof.
  unfold at_index. destruct (Z.ltb_spec (Z.of_nat k) 0); [lia|].
  rewrite Nat2Z.id. apply nth_error_map.
Qed.

Lemma sku_present_csv k row :
  sku_present (Z.of_nat k) (List.map CStr row) = negb (blank_sku k row).
Proof.
  unfold sku_present, blank_sku. rewrite at_index_csv.
  destruct (nth_error row k) as [s|]; [|reflexivity].
  cbn. destruct s as [|u s]; [reflexivity|].
  cbn [str_truthy]. apply str_truthy_trim.
Qed.

Lemma kept_count k data :
  Z.of_nat (length (List.filter (sku_present (Z.of_nat k)) (List.map (List.map CStr) data)))
  = (Z.of_nat (length data) - Z.of_nat (length (List.filter (blank_sku k) data)))%Z.
Proof.
  induction data as [|row data IH]; [reflexivity|].
  cbn [List.map List.filter]. rewrite sku_present_csv.
  destruct (blank_sku k row); cbn [negb length]; lia.
Qed.

(** The rows kept of a CSV table that has a SKU column and no column to
    remove. *)
Lemma transformData_csv header data k :
  index_of (js "Variant SKU") header = Some k ->
  Forall (fun h => has_listed_prefix h = false) header ->
  transformData (csv_table (header :: data))
  = List.map CStr header
    :: List.filter (sku_present (Z.of_nat k)) (List.map (List.map CStr) data).
Proof.
  intros Hk Hh. rewrite transformData_eq_spec. unfold transformData_spec.
  rewrite prune_csv_table by assumption. cbn [List.map].
  unfold findIndex. rewrite findIndex_from_csv, Hk. reflexivity.
Qed.

(** ** The file name *)

(** Lowering a code unit gives a lower-case letter or a dot exactly when
    the pattern with the [i] flag accepts the code unit for it. *)
Lemma lower_vs_canonicalize u p :
  suffix_unit p -> lower_unit u = p <-> canonicalize u = canonicalize p.
Proof.
  unfold suffix_unit, lower_unit, canonicalize, in_range. intros Hp.
  destruct (N.leb_spec 65 u), (N.leb_spec u 90), (N.leb_spec 97 u),
    (N.leb_spec u 122), (N.leb_spec 97 p), (N.leb_spec p 122);
    cbn [andb]; lia.
Qed.

Lemma map_lower_vs_canonicalize p : Forall suffix_unit p ->
  forall l, List.map lower_unit l = p
            <-> List.map canonicalize l = List.map canonicalize p.
Proof.
  induction 1 as [|a p Ha _ IH]; intros [|u l]; cbn [List.map];
    try (split; (reflexivity || discriminate)).
  split; intros [= E1 E2]; f_equal;
    try (now apply (lower_vs_canonicalize u a Ha));
    now apply IH.
Qed.

Lemma endsWith_lower s p :
  endsWith (toLowerCase s) p = true
  <-> (length p <= length s)%nat
      /\ List.map lower_unit (List.skipn (length s - length p) s) = p.
Proof.
  unfold endsWith, toLowerCase, str_eqb.
  rewrite length_map, skipn_map, andb_true_iff, bool_decide_eq_true.
  now rewrite Nat.leb_le.
Qed.

Section Suffix.

Variables suffix repl : jsstring.
Hypothesis suffix_ok : Forall suffix_unit suffix.

(** The pattern matches where the format test succeeded. *)
Lemma replace_suffix_match s :
  endsWith (toLowerCase s) suffix = true ->
  exists stem ending,
    s = stem ++ ending /\ toLowerCase ending = suffix
    /\ replace_suffix_ci s suffix repl = stem ++ repl.
Proof.
  intros H. apply endsWith_lower in H as [Hlen Hsuf].
  set (n := (length s - length suffix)%nat) in *.
  exists (List.firstn n s), (List.skipn n s). split; [|split].
  - symmetry. apply List.firstn_skipn.
  - exact Hsuf.
  - unfold replace_suffix_ci. fold n. unfold ci_eqb, str_eqb.
    apply (map_lower_vs_canonicalize suffix suffix_ok) in Hsuf.
    now rewrite bool_decide_eq_true_2.
Qed.

(** And nowhere else. *)
Lemma replace_suffix_no_match s :
  endsWith (toLowerCase s) suffix = false ->
  replace_suffix_ci s suffix repl = s.
Proof.
  intros H. unfold replace_suffix_ci, ci_eqb, str_eqb.
  set (n := (length s - length suffix)%nat).
  rewrite bool_decide_eq_false_2; [reflexivity|].
  intros E. apply (map_lower_vs_canonicalize suffix suffix_ok) in E.
  assert (Hlen : (length suffix <= length s)%nat).
  { rewrite <- E at 1. rewrite length_map, List.length_skipn. lia. }
  assert (endsWith (toLowerCase s) suffix = true) by now apply endsWith_lower.
  congruence.
Qed.

End Suffix.

Lemma xlsx_suffix_ok : Forall suffix_unit (js ".xlsx").
Proof. repeat constructor; unfold suffix_unit; cbn; lia. Qed.

Lemma csv_suffix_ok : Forall suffix_unit (js ".csv").
Proof. repeat constructor; unfold suffix_unit; cbn; lia. Qed.

(** A name cannot end in both suffixes. *)
Lemma csv_not_xlsx filename : isCsv filename = true -> isXlsx filename = false.
Proof.
  unfold isCsv, isXlsx. intros Hc.
  destruct (endsWith (toLowerCase filename) (js ".xlsx")) eqn:Hx; [|reflexivity].
  apply endsWith_lower in Hc as [_ Hc]. apply endsWith_lower in Hx as [_ Hx].
  set (l := List.map lower_unit filename).
  rewrite <- skipn_map in Hc, Hx. fold l in Hc, Hx.
  pose proof (List.firstn_skipn (length filename - length (js ".csv")) l) as E1.
  pose proof (List.firstn_skipn (length filename - length (js ".xlsx")) l) as E2.
  rewrite Hc in E1. rewrite Hx in E2. rewrite <- E2 in E1.
  change (js ".csv") with (js ".cs" ++ [118]) in E1.
  change (js ".xlsx") with (js ".xls" ++ [120]) in E1.
  rewrite !app_assoc in E1. apply app_inj_tail in E1 as [_ E1]. discriminate.
Qed.

(** ** createExport, path by path *)

Lemma snd_seq {A} ev (k : M A) : snd (call ev ;;; k) = snd k.
Proof. destruct k as [t r]. reflexivity. Qed.

Lemma snd_seqs {A} evs (k : M A) : snd (calls evs ;;; k) = snd k.
Proof. destruct k as [t r]. reflexivity. Qed.

Section Paths.

Variable rt : runtime.

Lemma generate_outcome xlsx filename rows :
  snd (generate rt xlsx filename rows)
  = match transformData rows with
    | [] => Return (Failure (js "No data to export"))
    | _ :: _ =>
        Return (Success (export_name xlsx filename)
                  (export_bytes rt xlsx (transformData rows))
                  (Z.of_nat (length (transformData rows)) - 1)
                  (transformData rows))
    end.
Proof.
  unfold generate. rewrite snd_seq.
  destruct (transformData rows) as [|header0 kept]; [reflexivity|].
  cbn [length Nat.ltb Nat.leb].
  destruct xlsx; [rewrite snd_seq|rewrite snd_seqs]; reflexivity.
Qed.

Lemma read_rows_outcome xlsx csv filename fileBuffer :
  snd (read_rows rt xlsx csv filename fileBuffer)
  = if xlsx then
      match XLSX_rows rt fileBuffer with
      | Some rows => snd (generate rt xlsx filename rows)
      | None => Throw XlsxError
      end
    else if csv then
      snd (generate rt xlsx filename
             (csv_table (parseCSV (Buffer_toString fileBuffer))))
    else Return (Failure (js "Unsupported file format")).
Proof.
  unfold read_rows. destruct xlsx; [|destruct csv]; try rewrite snd_seq;
    try reflexivity.
  now destruct (XLSX_rows rt fileBuffer).
Qed.

Lemma createExport_outcome file filename :
  snd (createExport rt file filename)
  = if negb (file_truthy file) then Return (Failure (js "No file provided"))
    else
      match filename with
      | None => Throw TypeError
      | Some name =>
          match file with
          | FileBuffer b | FileHolder (Some b) =>
              snd (read_rows rt (isXlsx name) (isCsv name) name b)
          | FileString path =>
              match readFileSync rt path with
              | Some b => snd (read_rows rt (isXlsx name) (isCsv name) name b)
              | None => Throw (ReadError path)
              end
          | FileHolder None => Throw TypeError
          | FileOther _ => Return (Failure (js "Invalid file format"))
          end
      end.
Proof.
  unfold createExport.
  destruct (negb (file_truthy file)); [reflexivity|].
  destruct filename as [name|]; [|reflexivity].
  destruct file as [b|path|[b|]|truthy]; try rewrite snd_seq; try reflexivity.
  now destruct (readFileSync rt path).
Qed.

(** An input that has a parsed table goes on to [transformData]. *)
Lemma createExport_parsed file filename rows :
  parsed_rows rt file filename = Some rows ->
  snd (createExport rt file (Some filename))
  = snd (generate rt (isXlsx filename) filename rows).
Proof.
  unfold parsed_rows. intros H.
  rewrite createExport_outcome.
  destruct file as [b|path|[b|]|truthy]; cbn [file_bytes file_truthy negb] in *;
    try discriminate.
  - rewrite read_rows_outcome.
    destruct (isXlsx filename); [now rewrite H|].
    destruct (isCsv filename); [now injection H as <-|discriminate].
  - destruct (str_truthy path); [|discriminate]. cbn [negb].
    destruct (readFileSync rt path) as [b|]; [|discriminate].
    rewrite read_rows_outcome.
    destruct (isXlsx filename); [now rewrite H|].
    destruct (isCsv filename); [now injection H as <-|discriminate].
  - rewrite read_rows_outcome.
    destruct (isXlsx filename); [now rewrite H|].
    destruct (isCsv filename); [now injection H as <-|discriminate].
Qed.

(** Only such an input can succeed. *)
Lemma createExport_success file filename name' buf count data :
  snd (createExport rt file filename) = Return (Success name' buf count data) ->
  exists name rows,
    filename = Some name /\ parsed_rows rt file name = Some rows
    /\ snd (generate rt (isXlsx name) name rows)
       = Return (Success name' buf count data).
Proof.
  rewrite createExport_outcome. intros H.
  destruct (file_truthy file) eqn:Ht; cbn [negb] in H; [|discriminate].
  destruct filename as [name|]; [|discriminate].
  exists name.
  assert (exists b, file_bytes rt file = Some b
                    /\ snd (read_rows rt (isXlsx name) (isCsv name) name b)
                       = Return (Success name' buf count data))
    as (b & Hb & Hr).
  { destruct file as [b|path|[b|]|truthy]; cbn [file_bytes];
      try discriminate; eauto.
    cbn in Ht. rewrite Ht.
    destruct (readFileSync rt path); [eauto|discriminate]. }
  rewrite read_rows_outcome in Hr. unfold parsed_rows. rewrite Hb.
  destruct (isXlsx name).
  - destruct (XLSX_rows rt b) as [rows|]; [eauto|discriminate].
  - destruct (isCsv name); [eauto|discriminate].
Qed.

End Paths.

(** ** The claims on transformData and createExport *)

Lemma findIndex_from_absent row :
  Forall (fun c => String_ c <> js "Variant SKU") row ->
  forall i, findIndex_from is_variant_sku row i = (-1)%Z.
Proof.
  induction 1 as [|c row Hc _ IH]; intros i; [reflexivity|].
  cbn [findIndex_from]. unfold is_variant_sku at 1, str_eqb.
  rewrite bool_decide_eq_false_2 by assumption. apply IH.
Qed.

Lemma filter_no_sku_column dataRows :
  List.filter (sku_present (-1)) dataRows = [].
Proof. induction dataRows as [|row more IH]; [reflexivity|exact IH]. Qed.

(** C1, amended.  When the parsed table has a header row and the pruned
    header has no cell equal to "Variant SKU", every data row is dropped:
    the export succeeds with the pruned header as its only row and a row
    count of 0.  The failure "No data to export" is what a parsed table
    with no row at all gives. *)
Theorem header_without_sku_column_exports_header_only :
  (forall rt file filename headers dataRows,
      parsed_rows rt file filename = Some (headers :: dataRows) ->
      let header0 := hd [] (prune (headers :: dataRows)) in
      Forall (fun c => String_ c <> js "Variant SKU") header0 ->
      transformData (headers :: dataRows) = [header0]
      /\ exists name buf,
           snd (createExport rt file (Some filename))
           = Return (Success name buf 0 [header0]))
  /\ (forall rt file filename,
      parsed_rows rt file filename = Some [] ->
      snd (createExport rt file (Some filename))
      = Return (Failure (js "No data to export"))).
Proof.
  split.
  - intros rt file filename headers dataRows Hp header0 Hh.
    assert (E : transformData (headers :: dataRows) = [header0]).
    { rewrite transformData_eq_spec. unfold transformData_spec.
      subst header0. destruct (prune (headers :: dataRows)) as [|h d] eqn:Ep.
      { discriminate Ep. }
      cbn [hd] in *. unfold findIndex.
      rewrite findIndex_from_absent by assumption.
      now rewrite filter_no_sku_column. }
    split; [exact E|].
    rewrite (createExport_parsed rt file filename _ Hp), generate_outcome, E.
    eauto.
  - intros rt file filename Hp.
    now rewrite (createExport_parsed rt file filename _ Hp), generate_outcome.
Qed.

Lemma generate_returns rt xlsx filename rows :
  exists r, snd (generate rt xlsx filename rows) = Return r.
Proof.
  rewrite generate_outcome. destruct (transformData rows); eauto.
Qed.

Lemma read_rows_throws rt xlsx csv filename b e :
  snd (read_rows rt xlsx csv filename b) = Throw e
  <-> xlsx = true /\ XLSX_rows rt b = None /\ e = XlsxError.
Proof.
  rewrite read_rows_outcome.
  destruct xlsx; [destruct (XLSX_rows rt b) as [rows|]|destruct csv].
  - destruct (generate_returns rt true filename rows) as [r ->].
    split; [discriminate|intros (_ & [=] & _)].
  - split; [intros [= <-]; auto|intros (_ & _ & ->); reflexivity].
  - destruct (generate_returns rt false filename
                (csv_table (parseCSV (Buffer_toString b)))) as [r ->].
    split; [discriminate|intros ([=] & _)].
  - split; [discriminate|intros ([=] & _)].
Qed.

(** C2, amended.  [createExport] has no handler: an exception raised
    inside it reaches the caller.  It throws exactly when a file is given
    and the file name is not a string, or reading the path fails, or the
    held buffer cannot be converted, or the workbook cannot be read.  On
    every other input it returns a result; in particular it always does
    for a buffer and a name that does not end in .xlsx. *)
Theorem createExport_throws_exactly_when rt file filename :
  ((exists e, snd (createExport rt file filename) = Throw e)
   <-> file_truthy file = true
       /\ (filename = None
           \/ (exists path, file = FileString path /\ readFileSync rt path = None)
           \/ file = FileHolder None
           \/ (exists name b, filename = Some name /\ isXlsx name = true
                /\ file_bytes rt file = Some b /\ XLSX_rows rt b = None)))
  /\ (forall b name, isXlsx name = false ->
      exists r, snd (createExport rt (FileBuffer b) (Some name)) = Return r).
Proof.
  split.
  - rewrite createExport_outcome.
    destruct (file_truthy file) eqn:Ht; cbn [negb].
    2:{ split; [intros [e [=]]|intros [[=] _]]. }
    destruct filename as [name|].
    2:{ split; [auto|eauto]. }
    destruct file as [b|path|[b|]|truthy]; cbn [file_bytes].
    + split.
      * intros [e He]. apply read_rows_throws in He as (Hx & Hr & _).
        split; [reflexivity|]. right; right; right. eauto 10.
      * intros [_ [[=]|[(? & [=] & _)|[[=]|(n & b' & [= <-] & Hx & [= <-] & Hr)]]]].
        exists XlsxError. now apply read_rows_throws.
    + cbn in Ht. rewrite Ht. cbv beta iota.
      destruct (readFileSync rt path) as [b|] eqn:Er.
      * split.
        -- intros [e He]. apply read_rows_throws in He as (Hx & Hr & _).
           split; [reflexivity|]. right; right; right. eauto 10.
        -- intros [_ [[=]|[(? & [= <-] & Hn)|[[=]|(n & b' & [= <-] & Hx & Hb & Hr)]]]];
             [congruence|].
           injection Hb as <-.
           exists XlsxError. now apply read_rows_throws.
      * split; [|eauto]. intros _. split; [reflexivity|]. right; left. eauto.
    + split.
      * intros [e He]. apply read_rows_throws in He as (Hx & Hr & _).
        split; [reflexivity|]. right; right; right. eauto 10.
      * intros [_ [[=]|[(? & [=] & _)|[[=]|(n & b' & [= <-] & Hx & [= <-] & Hr)]]]].
        exists XlsxError. now apply read_rows_throws.
    + split; [|eauto]. intros _. split; [reflexivity|]. auto.
    + split; [intros [e [=]]|].
      intros [_ [[=]|[(? & [=] & _)|[[=]|(n & b' & _ & _ & [=] & _)]]]].
  - intros b name Hx. rewrite createExport_outcome. cbn [file_truthy negb].
    destruct (snd (read_rows rt (isXlsx name) (isCsv name) name b)) as [r|e] eqn:E;
      [eauto|].
    apply read_rows_throws in E as (E & _). congruence.
Qed.

(** C3, amended.  For a file that is given and a name that ends in neither
    suffix, [createExport] normalizes the input first and tests the format
    after that: a buffer gives "Unsupported file format" with no call made,
    a path is read and a held buffer is converted before the same answer
    (or the exception of that call), and any other value gives "Invalid
    file format".  On none of these paths is a parser called. *)
Theorem unsupported_suffix_is_met_after_normalization rt file filename :
  file_truthy file = true ->
  isXlsx filename = false -> isCsv filename = false ->
  existsb is_parse_call (fst (createExport rt file (Some filename))) = false
  /\ createExport rt file (Some filename)
     = match file with
       | FileBuffer _ => ([], Return (Failure (js "Unsupported file format")))
       | FileString path =>
           ([Call_readFileSync path],
            match readFileSync rt path with
            | Some _ => Return (Failure (js "Unsupported file format"))
            | None => Throw (ReadError path)
            end)
       | FileHolder payload =>
           ([Call_Buffer_from],
            match payload with
            | Some _ => Return (Failure (js "Unsupported file format"))
            | None => Throw TypeError
            end)
       | FileOther _ => ([], Return (Failure (js "Invalid file format")))
       end.
Proof.
  intros Ht Hx Hc.
  assert (E : createExport rt file (Some filename)
     = match file with
       | FileBuffer _ => ([], Return (Failure (js "Unsupported file format")))
       | FileString path =>
           ([Call_readFileSync path],
            match readFileSync rt path with
            | Some _ => Return (Failure (js "Unsupported file format"))
            | None => Throw (ReadError path)
            end)
       | FileHolder payload =>
           ([Call_Buffer_from],
            match payload with
            | Some _ => Return (Failure (js "Unsupported file format"))
            | None => Throw TypeError
            end)
       | FileOther _ => ([], Return (Failure (js "Invalid file format")))
       end).
  { unfold createExport. rewrite Ht, Hx, Hc. cbn [negb]. unfold read_rows.
    destruct file as [b|path|[b|]|truthy]; try reflexivity.
    now destruct (readFileSync rt path). }
  split; [|exact E].
  rewrite E. now destruct file.
Qed.

(** C4.  For a CSV input whose header has a "Variant SKU" cell, first at
    column [k], and no cell that starts with a listed prefix, the export
    succeeds and its row count is the number of data rows minus the number
    of data rows whose cell in column [k] is missing, empty or made of
    white space only. *)
Theorem rowCount_is_data_rows_minus_blank_sku rt file filename b header data k :
  file_bytes rt file = Some b ->
  isCsv filename = true ->
  parseCSV (Buffer_toString b) = header :: data ->
  index_of (js "Variant SKU") header = Some k ->
  Forall (fun h => has_listed_prefix h = false) header ->
  exists name buf table,
    snd (createExport rt file (Some filename))
    = Return (Success name buf
                (Z.of_nat (length data)
                 - Z.of_nat (length (List.filter (blank_sku k) data)))
                table).
Proof.
  intros Hb Hc Hparse Hk Hh.
  assert (Hp : parsed_rows rt file filename = Some (csv_table (header :: data))).
  { unfold parsed_rows. now rewrite Hb, (csv_not_xlsx _ Hc), Hc, Hparse. }
  rewrite (createExport_parsed rt file filename _ Hp), generate_outcome.
  rewrite (transformData_csv header data k Hk Hh).
  cbn [length]. rewrite Nat2Z.inj_succ, kept_count.
  replace (Z.succ (Z.of_nat (length data)
                   - Z.of_nat (length (List.filter (blank_sku k) data))) - 1)%Z
    with (Z.of_nat (length data)
          - Z.of_nat (length (List.filter (blank_sku k) data)))%Z by lia.
  eauto.
Qed.

Lemma scenario_rows :
  transformData (csv_table (parseCSV (Buffer_toString (Buffer_from scenario_input))))
  = scenario_data.
Proof. vm_compute. reflexivity. Qed.

(** C5, amended.  For the scenario text under a name that ends in .csv,
    [createExport] removes the Google Category column, drops row h2 and
    returns a row count of 1; the output buffer decodes to the header line
    and the h1 line joined by one newline, with no newline after the last
    line. *)
Theorem scenario_export rt filename :
  isCsv filename = true ->
  createExport rt (FileBuffer (Buffer_from scenario_input)) (Some filename)
  = ([Call_parseCSV; Call_transformData; Call_rowToCSV; Call_rowToCSV],
     Return (Success (replace_suffix_ci filename (js ".csv") (js "-export.csv"))
               (Buffer_from scenario_output) 1 scenario_data))
  /\ Buffer_toString (Buffer_from scenario_output)
     = js "Handle,Variant SKU" ++ [LF] ++ js "h1,SKU1".
Proof.
  intros Hc. split; [|vm_compute; reflexivity].
  unfold createExport. cbn [file_truthy negb].
  rewrite (csv_not_xlsx _ Hc), Hc. unfold read_rows, generate.
  rewrite scenario_rows. reflexivity.
Qed.

Lemma sublist_filter_list {A} (f : A -> bool) (l : list A) :
  sublist (List.filter f l) l.
Proof.
  induction l as [|x l IH]; cbn [List.filter]; [constructor|].
  destruct (f x); now constructor.
Qed.

(** C9.  A successful export is named after the input: the name is a stem
    followed by an ending that reads .xlsx or .csv when lowered, and the
    output name is the stem followed by -export.xlsx or -export.csv.  The
    three names of the specification come out as it says, and a name with
    no such ending is left as it is by the replacement. *)
Theorem output_filename_replaces_suffix :
  (forall rt file filename name' buf count data,
      snd (createExport rt file filename) = Return (Success name' buf count data) ->
      exists name stem ending,
        filename = Some name /\ name = stem ++ ending
        /\ ((toLowerCase ending = js ".xlsx" /\ name' = stem ++ js "-export.xlsx")
            \/ (toLowerCase ending = js ".csv" /\ name' = stem ++ js "-export.csv")))
  /\ replace_suffix_ci (js "products.xlsx") (js ".xlsx") (js "-export.xlsx")
     = js "products-export.xlsx"
  /\ replace_suffix_ci (js "products.csv") (js ".csv") (js "-export.csv")
     = js "products-export.csv"
  /\ replace_suffix_ci (js "products.CSV") (js ".csv") (js "-export.csv")
     = js "products-export.csv"
  /\ (forall name, isXlsx name = false ->
      replace_suffix_ci name (js ".xlsx") (js "-export.xlsx") = name)
  /\ (forall name, isCsv name = false ->
      replace_suffix_ci name (js ".csv") (js "-export.csv") = name).
Proof.
  split; [|repeat split; try (vm_compute; reflexivity)].
  - intros rt file filename name' buf count data H.
    apply createExport_success in H as (name & rows & -> & Hp & Hg).
    rewrite generate_outcome in Hg.
    destruct (transformData rows) as [|header0 kept]; [discriminate|].
    injection Hg as <- _ _ _. exists name. unfold export_name.
    unfold parsed_rows in Hp. destruct (file_bytes rt file); [|discriminate].
    destruct (isXlsx name) eqn:Hx.
    + destruct (replace_suffix_match _ (js "-export.xlsx") xlsx_suffix_ok name Hx)
        as (stem & ending & E1 & E2 & E3).
      exists stem, ending. rewrite E3. auto.
    + destruct (isCsv name) eqn:Hc; [|discriminate].
      destruct (replace_suffix_match _ (js "-export.csv") csv_suffix_ok name Hc)
        as (stem & ending & E1 & E2 & E3).
      exists stem, ending. rewrite E3. auto.
  - intros name H. now apply replace_suffix_no_match; [apply xlsx_suffix_ok|].
  - intros name H. now apply replace_suffix_no_match; [apply csv_suffix_ok|].
Qed.

(** C10.  A successful result holds the four fields together: the name
    and the bytes written for its data; its data has the pruned header of
    the parsed table as first row, followed by pruned data rows in the
    order the parsed table has them; and its row count is the number of
    rows of data less one.  The row count can be 0:
    the table with a header and no SKU column is exported with its header
    alone. *)
Theorem success_carries_header_and_ordered_rows :
  (forall rt file filename name' buf count data,
      snd (createExport rt file filename) = Return (Success name' buf count data) ->
      exists name rows kept,
        filename = Some name /\ parsed_rows rt file name = Some rows
        /\ rows <> []
        /\ name' = export_name (isXlsx name) name
        /\ buf = export_bytes rt (isXlsx name) data
        /\ data = hd [] (prune rows) :: kept
        /\ sublist kept (tl (prune rows))
        /\ count = (Z.of_nat (length data) - 1)%Z)
  /\ (exists name buf header0,
      snd (createExport bare_runtime (FileBuffer (Buffer_from no_sku_input))
             (Some (js "products.csv")))
      = Return (Success name buf 0 [header0])).
Proof.
  split.
  - intros rt file filename name' buf count data H.
    apply createExport_success in H as (name & rows & -> & Hp & Hg).
    rewrite generate_outcome, transformData_eq_spec in Hg.
    unfold transformData_spec in Hg.
    destruct rows as [|headers rest]; [discriminate|].
    destruct (prune (headers :: rest)) as [|header0 dataRows] eqn:Ep;
      [discriminate|].
    injection Hg as <- <- <- <-.
    exists name, (headers :: rest),
      (List.filter (sku_present (findIndex is_variant_sku header0)) dataRows).
    rewrite Ep. cbn [hd tl].
    repeat split; trivial; [discriminate|apply sublist_filter_list].
  - eexists _, _, _. vm_compute. reflexivity.
Qed.

(** ** Instances *)

Lemma header_without_sku_column_witness :
  transformData (csv_table (parseCSV no_sku_input))
  = [[CStr (js "Handle"); CStr (js "Title")]]
  /\ exists name buf,
       snd (createExport bare_runtime (FileBuffer (Buffer_from no_sku_input))
              (Some (js "products.csv")))
       = Return (Success name buf 0 [[CStr (js "Handle"); CStr (js "Title")]]).
Proof.
  apply (proj1 header_without_sku_column_exports_header_only bare_runtime
           (FileBuffer (Buffer_from no_sku_input)) (js "products.csv")
           [cell_of (js "Handle"); cell_of (js "Title")]
           [[cell_of (js "h1"); cell_of (js "Shirt")]]).
  - vm_compute. reflexivity.
  - repeat constructor; vm_compute; discriminate.
Defined.

(** The claim C1 fails here: the header has no SKU column and the export
    succeeds. *)
Lemma no_sku_column_is_exported :
  parseCSV (Buffer_toString (Buffer_from no_sku_input))
  = [[js "Handle"; js "Title"]; [js "h1"; js "Shirt"]]
  /\ snd (createExport bare_runtime (FileBuffer (Buffer_from no_sku_input))
            (Some (js "products.csv")))
     = Return (Success (js "products-export.csv") (Buffer_from (js "Handle,Title"))
                 0 [[CStr (js "Handle"); CStr (js "Title")]])
  /\ snd (createExport bare_runtime (FileBuffer (Buffer_from no_sku_input))
            (Some (js "products.csv")))
     <> Return (Failure (js "No data to export")).
Proof. repeat split; vm_compute; (reflexivity || discriminate). Qed.

Lemma createExport_returns_witness :
  exists r,
    snd (createExport bare_runtime (FileBuffer []) (Some (js "empty.csv")))
    = Return r.
Proof.
  apply (proj2 (createExport_throws_exactly_when bare_runtime (FileBuffer []) None)).
  vm_compute. reflexivity.
Defined.

(** The claim C2 fails here: a path that cannot be read, and a file name
    that is not a string. *)
Lemma createExport_lets_exceptions_through :
  snd (createExport bare_runtime (FileString (js "missing.csv"))
         (Some (js "missing.csv")))
  = Throw (ReadError (js "missing.csv"))
  /\ snd (createExport bare_runtime (FileBuffer []) None) = Throw TypeError.
Proof. split; vm_compute; reflexivity. Qed.

Lemma unsupported_suffix_witness :
  existsb is_parse_call
    (fst (createExport bare_runtime (FileString (js "data.txt"))
            (Some (js "data.txt")))) = false
  /\ createExport bare_runtime (FileString (js "data.txt")) (Some (js "data.txt"))
     = ([Call_readFileSync (js "data.txt")], Throw (ReadError (js "data.txt"))).
Proof.
  apply (unsupported_suffix_is_met_after_normalization bare_runtime
           (FileString (js "data.txt")) (js "data.txt"));
    vm_compute; reflexivity.
Defined.

(** The claim C3 fails here: the suffix is not supported, yet the answer
    for a file of an unknown shape is another one, and a path is read. *)
Lemma unsupported_suffix_other_answer :
  createExport bare_runtime (FileOther true) (Some (js "data.txt"))
  = ([], Return (Failure (js "Invalid file format")))
  /\ snd (createExport bare_runtime (FileOther true) (Some (js "data.txt")))
     <> Return (Failure (js "Unsupported file format"))
  /\ fst (createExport bare_runtime (FileString (js "data.txt"))
            (Some (js "data.txt")))
     = [Call_readFileSync (js "data.txt")].
Proof. repeat split; vm_compute; (reflexivity || discriminate). Qed.

Lemma rowCount_witness :
  exists name buf table,
    snd (createExport bare_runtime (FileBuffer (Buffer_from ragged_input))
           (Some (js "products.csv")))
    = Return (Success name buf 2 table).
Proof.
  apply (rowCount_is_data_rows_minus_blank_sku bare_runtime
           (FileBuffer (Buffer_from ragged_input)) (js "products.csv")
           (Buffer_from ragged_input)
           [js "Handle"; js "Variant SKU"; js "Title"]
           [[js "h1"; js "S1"; js "A"]; [js "h2"; js " "; js "B"]; [js "h3"];
            [js "h4"; js "S4"; js "D"]]
           1%nat).
  - reflexivity.
  - vm_compute. reflexivity.
  - vm_compute. reflexivity.
  - vm_compute. reflexivity.
  - repeat constructor.
Defined.

Lemma scenario_export_witness :
  createExport bare_runtime (FileBuffer (Buffer_from scenario_input))
    (Some (js "products.csv"))
  = ([Call_parseCSV; Call_transformData; Call_rowToCSV; Call_rowToCSV],
     Return (Success
               (replace_suffix_ci (js "products.csv") (js ".csv") (js "-export.csv"))
               (Buffer_from scenario_output) 1 scenario_data))
  /\ Buffer_toString (Buffer_from scenario_output)
     = js "Handle,Variant SKU" ++ [LF] ++ js "h1,SKU1".
Proof.
  apply (scenario_export bare_runtime (js "products.csv")).
  vm_compute. reflexivity.
Defined.

(** The claim C5 fails here: the output has no newline after its last
    line. *)
Lemma scenario_output_has_no_final_newline :
  snd (createExport bare_runtime (FileBuffer (Buffer_from scenario_input))
         (Some (js "products.csv")))
  = Return (Success (js "products-export.csv") (Buffer_from scenario_output) 1
              scenario_data)
  /\ Buffer_toString (Buffer_from scenario_output)
     <> js "Handle,Variant SKU" ++ [LF] ++ js "h1,SKU1" ++ [LF].
Proof. split; vm_compute; (reflexivity || discriminate). Qed.

Lemma parseCSV_quoting_witness :
  parseCSV (quoted (js "a,b" ++ [DQUOTE; LF; CR]))
  = [[js "a,b" ++ [DQUOTE; LF; CR]]]
  /\ parseCSV (js "a,b" ++ [LF] ++ js "c")
     = parseCSV ((js "a,b" ++ [LF] ++ js "c") ++ [LF])
  /\ parseCSV ((js "a,b" ++ [LF] ++ js "c,") ++ js "tail")
     = [[js "a"; js "b"]] ++ [[js "c"] ++ [[] ++ js "tail"]].
Proof.
  destruct parseCSV_quoting_and_trailing_content as (_ & _ & _ & H4 & H5 & H6 & _).
  split; [|split].
  - apply H4. vm_compute. discriminate.
  - apply H5. vm_compute. reflexivity.
  - apply (H6 (js "a,b" ++ [LF] ++ js "c,") (js "tail")).
    + vm_compute. reflexivity.
    + vm_compute. discriminate.
    + vm_compute. reflexivity.
Defined.

Lemma csv_roundtrip_witness :
  parseCSV (tableToCSV (List.map (List.map CStr) quoting_table)) = quoting_table.
Proof.
  apply (proj1 (csv_roundtrip quoting_table)).
  repeat constructor; vm_compute; discriminate.
Defined.

(** The claim C7 fails here: the row made of one empty cell is written as
    an empty line, which the parser skips. *)
Lemma csv_roundtrip_loses_blank_row :
  parseCSV (tableToCSV (List.map (List.map CStr) blank_row_table))
  = [[js "a"]; [js "b"]]
  /\ parseCSV (tableToCSV (List.map (List.map CStr) blank_row_table))
     <> blank_row_table.
Proof. split; vm_compute; (reflexivity || discriminate). Qed.

Lemma output_filename_witness :
  exists name stem ending,
    Some (js "products.CSV") = Some name /\ name = stem ++ ending
    /\ ((toLowerCase ending = js ".xlsx"
         /\ js "products-export.csv" = stem ++ js "-export.xlsx")
        \/ (toLowerCase ending = js ".csv"
            /\ js "products-export.csv" = stem ++ js "-export.csv")).
Proof.
  apply (proj1 output_filename_replaces_suffix bare_runtime
           (FileBuffer (Buffer_from scenario_input)) (Some (js "products.CSV"))
           (js "products-export.csv") (Buffer_from scenario_output) 1%Z
           scenario_data).
  vm_compute. reflexivity.
Defined.

Lemma success_shape_witness :
  exists name rows kept,
    Some (js "products.csv") = Some name
    /\ parsed_rows bare_runtime (FileBuffer (Buffer_from scenario_input)) name
       = Some rows
    /\ rows <> []
    /\ js "products-export.csv" = export_name (isXlsx name) name
    /\ Buffer_from scenario_output
       = export_bytes bare_runtime (isXlsx name) scenario_data
    /\ scenario_data = hd [] (prune rows) :: kept
    /\ sublist kept (tl (prune rows))
    /\ 1%Z = (Z.of_nat (length scenario_data) - 1)%Z.
Proof.
  apply (proj1 success_carries_header_and_ordered_rows bare_runtime
           (FileBuffer (Buffer_from scenario_input)) (Some (js "products.csv"))
           (js "products-export.csv") (Buffer_from scenario_output)).
  vm_compute. reflexivity.
Defined.


(** * Further properties *)

(** ** Line endings *)

Lemma step_terminator u nextChar st :
  is_terminator u = true -> insideQuotes st = false ->
  step u nextChar st
  = (if pending st then push_record st else st, (u =? CR) && opt_is nextChar LF).
Proof.
  unfold is_terminator, step. intros Hu Hq. rewrite Hq. cbn [negb andb].
  destruct (N.eqb_spec u LF) as [->|Hl]; [reflexivity|].
  destruct (N.eqb_spec u CR) as [->|Hc]; [reflexivity|discriminate Hu].
Qed.

(** Between two records any run of line endings is skipped. *)
Lemma parse_blank_lines n : forall sep rest rs,
  (length sep <= n)%nat ->
  forallb is_terminator sep = true ->
  opt_is (head rest) LF = false ->
  parse_loop (sep ++ rest) (mkP rs [] [] false)
  = parse_loop rest (mkP rs [] [] false).
Proof.
  induction n as [|n IH]; intros sep rest rs Hlen Hsep Hrest.
  - destruct sep; [reflexivity | cbn in Hlen; lia].
  - destruct sep as [|u sep]; [reflexivity|].
    cbn [forallb] in Hsep. apply andb_true_iff in Hsep as [Hu Hsep].
    cbn [app parse_loop]. rewrite step_terminator by (assumption || reflexivity).
    cbn [pending currentField currentRow str_truthy length Nat.eqb negb orb].
    cbn in Hlen.
    destruct ((u =? CR) && opt_is (head (sep ++ rest)) LF) eqn:Hskip.
    + destruct sep as [|v sep].
      * apply andb_true_iff in Hskip as [_ Hskip]. cbn [app] in Hskip. congruence.
      * cbn [app]. cbn [forallb] in Hsep. apply andb_true_iff in Hsep as [_ Hsep].
        apply IH; trivial. cbn in Hlen. lia.
    + apply IH; trivial. lia.
Qed.

(** The text of a row that can be a record does not start with a line
    feed, whatever follows it. *)
Lemma row_text_head r rest :
  recordable r ->
  opt_is (head (rowToCSV (List.map CStr r) ++ rest)) LF = false.
Proof.
  intros [Hne Hblank]. destruct r as [|f fs]; [contradiction|].
  unfold rowToCSV. cbn [List.map].
  assert (Hf : forall tail, opt_is (head (fieldToCSV (CStr f) ++ COMMA :: tail)) LF = false).
  { intros tail. unfold fieldToCSV. cbn [String_].
    destruct (needs_quoting f) eqn:E; [reflexivity|].
    destruct f as [|u f]; [reflexivity|].
    apply needs_quoting_cons in E as [(_ & _ & Hu & _) _].
    cbn. now apply N.eqb_neq. }
  destruct fs as [|g fs].
  - cbn [List.map join]. unfold fieldToCSV. cbn [String_].
    destruct (needs_quoting f) eqn:E; [reflexivity|].
    destruct f as [|u f]; [contradiction Hblank; reflexivity|].
    apply needs_quoting_cons in E as [(_ & _ & Hu & _) _].
    cbn. now apply N.eqb_neq.
  - cbn [List.map]. rewrite join_cons, <- !app_assoc. cbn [app]. apply Hf.
Qed.

(** A row, its line ending, and what comes next. *)
Lemma parse_ended_line r sep rest rs :
  recordable r -> sep <> [] -> forallb is_terminator sep = true ->
  opt_is (head rest) LF = false ->
  parse_loop (rowToCSV (List.map CStr r) ++ sep ++ rest) (mkP rs [] [] false)
  = parse_loop rest (mkP (rs ++ [r]) [] [] false).
Proof.
  intros Hr Hne Hsep Hrest.
  destruct (recordable_split r Hr) as (init & f & -> & Hp).
  destruct sep as [|u sep]; [contradiction|].
  cbn [forallb] in Hsep. apply andb_true_iff in Hsep as [Hu Hsep].
  assert (Hq : opt_is (head ((u :: sep) ++ rest)) DQUOTE = false).
  { cbn. unfold is_terminator in Hu.
    destruct (N.eqb_spec u LF) as [->|_]; [reflexivity|].
    destruct (N.eqb_spec u CR) as [->|_]; [reflexivity|discriminate Hu]. }
  rewrite parse_row by exact Hq.
  cbn [app parse_loop]. rewrite step_terminator by (assumption || reflexivity).
  rewrite (pending_rows rs [] _ _ false false), Hp.
  unfold push_record.
  cbn [rows currentRow currentField insideQuotes].
  destruct ((u =? CR) && opt_is (head (sep ++ rest)) LF) eqn:Hskip.
  - destruct sep as [|v sep].
    + apply andb_true_iff in Hskip as [_ Hskip]. cbn [app] in Hskip. congruence.
    + cbn [app]. cbn [forallb] in Hsep. apply andb_true_iff in Hsep as [_ Hsep].
      now apply (parse_blank_lines (length sep)).
  - now apply (parse_blank_lines (length sep)).
Qed.

Lemma parse_ended_lines lines : forall rest rs,
  Forall ended_line lines ->
  opt_is (head rest) LF = false ->
  parse_loop (csv_lines lines ++ rest) (mkP rs [] [] false)
  = parse_loop rest (mkP (rs ++ List.map fst lines) [] [] false).
Proof.
  induction lines as [|[r sep] lines IH]; intros rest rs Hl Hrest.
  - cbn. now rewrite app_nil_r.
  - inversion Hl as [|? ? (Hr & Hne & Hsep) Hl']; subst. cbn [fst snd] in *.
    unfold csv_lines in *. cbn [flat_map fst snd List.map].
    rewrite <- !app_assoc. rewrite parse_ended_line; trivial.
    + rewrite IH by assumption. now rewrite <- app_assoc.
    + destruct lines as [|[r2 sep2] lines]; [exact Hrest|].
      inversion Hl' as [|? ? (Hr2 & _) _]; subst.
      cbn [flat_map fst snd]. rewrite <- !app_assoc. now apply row_text_head.
Qed.

Lemma text_head lines last :
  Forall ended_line lines -> (forall r, last = Some r -> recordable r) ->
  opt_is (head (csv_lines lines ++ csv_last_line last)) LF = false.
Proof.
  intros Hl Hlast. destruct lines as [|[r sep] lines].
  - destruct last as [r|]; [|reflexivity]. cbn [csv_lines flat_map app csv_last_line].
    rewrite <- (app_nil_r (rowToCSV _)). apply row_text_head. now apply Hlast.
  - inversion Hl as [|? ? (Hr & _) _]; subst.
    unfold csv_lines. cbn [flat_map fst snd]. rewrite <- !app_assoc.
    now apply row_text_head.
Qed.

(** X1.  Whatever the text, a row [parseCSV] returns has a cell, and is
    not one empty cell alone: a line with nothing on it gives no row. *)
Theorem parseCSV_rows_have_content content r :
  In r (parseCSV content) -> r <> [] /\ r <> [[]].
Proof.
  intros Hr. pose proof (parseCSV_recordable content) as H.
  rewrite List.Forall_forall in H. now apply H.
Qed.

(** X2.  Records may end in a line feed, a carriage return, both, or any
    run of them: blank lines before, between and after the records give
    nothing, and the last record needs no line ending.  In particular a
    text of line endings only, the empty text included, has no record. *)
Theorem parseCSV_any_line_ending lead lines last :
  forallb is_terminator lead = true ->
  Forall ended_line lines ->
  (forall r, last = Some r -> recordable r) ->
  parseCSV (lead ++ csv_lines lines ++ csv_last_line last)
  = List.map fst lines ++ match last with Some r => [r] | None => [] end.
Proof.
  intros Hlead Hl Hlast. unfold parseCSV.
  rewrite (parse_blank_lines (length lead)) by (trivial; now apply text_head).
  rewrite parse_ended_lines.
  - cbn [app]. destruct last as [r|].
    + cbn [csv_last_line]. apply parse_last_line. now apply Hlast.
    + cbn. now rewrite app_nil_r.
  - exact Hl.
  - destruct last as [r|]; [|reflexivity]. cbn [csv_last_line].
    rewrite <- (app_nil_r (rowToCSV _)). apply row_text_head. now apply Hlast.
Qed.

(** ** Column pruning *)

Lemma prefixed_at_S c headers j :
  prefixed_at (c :: headers) (S j) = prefixed_at headers j.
Proof. reflexivity. Qed.

Lemma prefixed_at_tl headers j :
  prefixed_at headers (S j) = prefixed_at (tl headers) j.
Proof. destruct headers; [now destruct j|reflexivity]. Qed.

(** The indices [forEach] collects: those the set had, and from [k] on
    the positions of the header cells that start with a listed prefix. *)
Lemma collect_indices_spec headers : forall k (S0 : gset nat) i,
  i ∈ collect_indices headers k S0
  <-> i ∈ S0 \/ ((k <= i)%nat /\ prefixed_at headers (i - k) = true).
Proof.
  induction headers as [|c headers IH]; intros k S0 i.
  - cbn [collect_indices]. unfold prefixed_at.
    destruct (i - k)%nat; cbn; intuition discriminate.
  - assert (Hshift : (S k <= i)%nat ->
                     prefixed_at (c :: headers) (i - k) = prefixed_at headers (i - S k)).
    { intros Hi. replace (i - k)%nat with (S (i - S k)) by lia. reflexivity. }
    destruct c as [header|]; cbn [collect_indices].
    + destruct (has_listed_prefix (String_ header)) eqn:Hp; rewrite IH.
      * rewrite elem_of_union, elem_of_singleton. split.
        -- intros [[->|Hi]|[Hi Hj]]; auto.
           ++ right. split; [lia|]. rewrite Nat.sub_diag. exact Hp.
           ++ right. split; [lia|]. now rewrite Hshift.
        -- intros [Hi|[Hi Hj]]; auto.
           destruct (Nat.eq_dec i k) as [->|Hne]; auto.
           right. split; [lia|]. rewrite <- Hshift by lia. exact Hj.
      * split.
        -- intros [Hi|[Hi Hj]]; auto. right. split; [lia|]. now rewrite Hshift.
        -- intros [Hi|[Hi Hj]]; auto.
           destruct (Nat.eq_dec i k) as [->|Hne].
           ++ rewrite Nat.sub_diag in Hj. unfold prefixed_at in Hj.
              cbn [nth_error] in Hj. congruence.
           ++ right. split; [lia|]. rewrite <- Hshift by lia. exact Hj.
    + rewrite IH. split.
      * intros [Hi|[Hi Hj]]; auto. right. split; [lia|]. now rewrite Hshift.
      * intros [Hi|[Hi Hj]]; auto.
        destruct (Nat.eq_dec i k) as [->|Hne].
        -- rewrite Nat.sub_diag in Hj. discriminate Hj.
        -- right. split; [lia|]. rewrite <- Hshift by lia. exact Hj.
Qed.

Lemma filter_columns_keep_cols row : forall headers k (S0 : gset nat),
  (forall i, (k <= i)%nat -> i ∈ S0 <-> prefixed_at headers (i - k) = true) ->
  filter_columns S0 row k = keep_cols headers row.
Proof.
  induction row as [|c row IH]; intros headers k S0 HS; [reflexivity|].
  assert (Hrest : filter_columns S0 row (S k) = keep_cols (tl headers) row).
  { apply IH. intros i Hi. rewrite (HS i) by lia.
    replace (i - k)%nat with (S (i - S k)) by lia.
    now rewrite prefixed_at_tl. }
  cbn [filter_columns keep_cols]. rewrite Hrest.
  destruct c as [v|]; [|reflexivity].
  pose proof (HS k (Nat.le_refl k)) as Hk. rewrite Nat.sub_diag in Hk.
  unfold prefixed_at in Hk.
  destruct headers as [|[h|] headers]; cbn [nth_error] in Hk.
  - rewrite bool_decide_eq_false_2; [reflexivity|]. intros H. apply Hk in H. discriminate.
  - destruct (has_listed_prefix (String_ h)).
    + rewrite bool_decide_eq_true_2; [reflexivity|]. now apply Hk.
    + rewrite bool_decide_eq_false_2; [reflexivity|]. intros H. apply Hk in H. discriminate.
  - rewrite bool_decide_eq_false_2; [reflexivity|]. intros H. apply Hk in H. discriminate.
Qed.

Lemma prune_keep_cols headers rest :
  prune (headers :: rest) = List.map (keep_cols headers) (headers :: rest).
Proof.
  unfold prune. apply List.map_ext. intros row.
  apply filter_columns_keep_cols. intros i _.
  rewrite collect_indices_spec, Nat.sub_0_r. split.
  - intros [H|[_ H]]; [set_solver|exact H].
  - intros H. right. split; [lia|exact H].
Qed.

(** X3.  The set of indices built from the header and the filter by index
    are a pruning column by column: in every row a cell is removed exactly
    when the header has, at the cell's position, a cell that starts with a
    listed prefix.  Cells past the end of the header, or under a hole of
    it, stay; a hole of a row gives no cell, so the cells after it move one
    place to the left. *)
Theorem prune_removes_columns_under_listed_headers headers rest :
  prune (headers :: rest) = List.map (keep_cols headers) (headers :: rest)
  /\ transformData (headers :: rest)
     = keep_cols headers headers
       :: List.filter
            (sku_present (findIndex is_variant_sku (keep_cols headers headers)))
            (List.map (keep_cols headers) rest).
Proof.
  split; [apply prune_keep_cols|].
  rewrite transformData_eq_spec. unfold transformData_spec.
  now rewrite prune_keep_cols.
Qed.

Lemma keep_cols_header_clean headers :
  Forall (fun c => has_listed_prefix (String_ c) = false) (keep_cols headers headers).
Proof.
  induction headers as [|c headers IH]; [constructor|].
  cbn [keep_cols tl]. destruct c as [h|]; [|exact IH].
  destruct (has_listed_prefix (String_ h)) eqn:E; [exact IH|].
  now constructor.
Qed.

Lemma keep_cols_clean_dense row : forall header0,
  Forall (fun c => has_listed_prefix (String_ c) = false) header0 ->
  keep_cols (List.map Some header0) (List.map Some row) = row.
Proof.
  induction row as [|v row IH]; intros header0 Hc; [reflexivity|].
  cbn [List.map keep_cols]. destruct header0 as [|h header0].
  - cbn [List.map tl]. f_equal. now apply (IH []).
  - inversion Hc as [|? ? Hh Hc']; subst. cbn [List.map tl]. rewrite Hh.
    f_equal. now apply IH.
Qed.

Lemma prune_clean_dense header0 kept :
  Forall (fun c => has_listed_prefix (String_ c) = false) header0 ->
  prune (List.map (List.map Some) (header0 :: kept)) = header0 :: kept.
Proof.
  intros Hc. cbn [List.map]. rewrite prune_keep_cols.
  change (List.map (keep_cols (List.map Some header0))
            (List.map Some header0 :: List.map (List.map Some) kept))
    with (List.map (keep_cols (List.map Some header0))
            (List.map (List.map Some) (header0 :: kept))).
  rewrite List.map_map. rewrite <- (List.map_id (header0 :: kept)) at 2.
  apply List.map_ext. intros row. now apply keep_cols_clean_dense.
Qed.

Lemma prune_header_clean rows :
  Forall (fun c => has_listed_prefix (String_ c) = false) (hd [] (prune rows)).
Proof.
  destruct rows as [|headers rest]; [constructor|].
  rewrite prune_keep_cols. cbn [List.map hd]. apply keep_cols_header_clean.
Qed.

(** X4.  After pruning no header cell starts with a listed prefix, and
    pruning the pruned table again removes nothing. *)
Theorem pruning_is_idempotent rows :
  Forall (fun c => has_listed_prefix (String_ c) = false) (hd [] (prune rows))
  /\ prune (List.map (List.map Some) (prune rows)) = prune rows.
Proof.
  split; [apply prune_header_clean|].
  pose proof (prune_header_clean rows) as Hc.
  destruct (prune rows) as [|header0 kept]; [reflexivity|].
  now apply prune_clean_dense.
Qed.

Lemma keep_cols_dense header : forall row,
  keep_cols (List.map Some header) (List.map Some row)
  = List.map snd
      (List.filter (fun hv => negb (has_listed_prefix (String_ (fst hv))))
         (combine header row))
    ++ List.skipn (length header) row.
Proof.
  induction header as [|h header IH]; intros row.
  - cbn [List.map combine List.filter length List.skipn app].
    now apply (keep_cols_clean_dense row []).
  - destruct row as [|v row]; [reflexivity|].
    cbn [List.map keep_cols tl combine List.filter fst length List.skipn].
    rewrite IH.
    now destruct (has_listed_prefix (String_ h)).
Qed.

(** X5.  In a table without holes every kept cell stays under its own
    header: pruning keeps of each row, in order, the cells paired with a
    header cell that does not start with a listed prefix, followed by all
    the cells the row has past the end of the header. *)
Theorem pruned_cells_stay_under_their_header (header : list cell)
    (rest : list (list cell)) :
  prune (dense (header :: rest))
  = List.map
      (fun row =>
         List.map snd
           (List.filter (fun hv => negb (has_listed_prefix (String_ (fst hv))))
              (combine header row))
         ++ List.skipn (length header) row)
      (header :: rest).
Proof.
  unfold dense.
  change (List.map (List.map Some) (header :: rest))
    with (List.map Some header :: List.map (List.map Some) rest).
  rewrite prune_keep_cols.
  change (List.map Some header :: List.map (List.map Some) rest)
    with (List.map (List.map Some) (header :: rest)).
  rewrite List.map_map. apply List.map_ext. intros row.
  apply keep_cols_dense.
Qed.

(** ** Rows with a SKU, in a table without holes *)






(** ** The rows of a successful export *)

Lemma findIndex_from_found p row : forall i,
  findIndex_from p row i = (-1)%Z
  \/ exists k c, findIndex_from p row i = (i + Z.of_nat k)%Z
                 /\ nth_error row k = Some c /\ p c = true
                 /\ forall j c', (j < k)%nat -> nth_error row j = Some c' ->
                                 p c' = false.
Proof.
  induction row as [|v row IH]; intros i; [now left|].
  cbn [findIndex_from]. destruct (p v) eqn:E.
  - right. exists 0%nat, v. repeat split; trivial; [cbn; lia|].
    intros j c' Hj. lia.
  - destruct (IH (i + 1)%Z) as [H|(k & c & H1 & H2 & H3 & H4)]; [now left|].
    right. exists (S k), c. repeat split; trivial; [rewrite H1; lia|].
    intros [|j] c' Hj Hc'.
    + injection Hc' as <-. exact E.
    + apply (H4 j); [lia|exact Hc'].
Qed.

Lemma sku_present_cell idx row :
  sku_present idx row = true ->
  exists k c, idx = Z.of_nat k /\ nth_error row k = Some c
              /\ cell_truthy c = true /\ trim (String_ c) <> [].
Proof.
  unfold sku_present, at_index.
  destruct (Z.ltb_spec idx 0) as [_|Hpos]; [discriminate|].
  destruct (nth_error row (Z.to_nat idx)) as [c|] eqn:E; [|discriminate].
  cbn [trimmed_text]. destruct (cell_truthy c) eqn:Ht; [|discriminate].
  intros H. exists (Z.to_nat idx), c. repeat split; trivial; [lia|].
  intros E'. rewrite E' in H. discriminate.
Qed.

(** X6.  Every data row of a successful export has a SKU: the exported
    header has a first cell that reads "Variant SKU" at some position, and
    the row has at that position a cell whose trimmed text is not empty.
    The row count is at most the number of data rows parsed. *)
Theorem exported_rows_have_a_sku rt file filename name' buf count data :
  snd (createExport rt file filename) = Return (Success name' buf count data) ->
  Forall (fun row =>
            exists k h c,
              findIndex is_variant_sku (hd [] data) = Z.of_nat k
              /\ nth_error (hd [] data) k = Some h
              /\ String_ h = js "Variant SKU"
              /\ (forall j h', (j < k)%nat -> nth_error (hd [] data) j = Some h' ->
                               String_ h' <> js "Variant SKU")
              /\ nth_error row k = Some c
              /\ trim (String_ c) <> [])
         (tl data)
  /\ exists name rows,
       filename = Some name /\ parsed_rows rt file name = Some rows
       /\ (0 <= count <= Z.of_nat (length rows) - 1)%Z.
Proof.
  intros H. apply createExport_success in H as (name & rows & -> & Hp & Hg).
  rewrite generate_outcome, transformData_eq_spec in Hg.
  unfold transformData_spec in Hg.
  destruct (prune rows) as [|header0 dataRows] eqn:Ep; [discriminate|].
  injection Hg as <- <- <- <-. cbn [hd tl]. split.
  - apply List.Forall_forall. intros row Hrow.
    apply List.filter_In in Hrow as [_ Hrow].
    apply sku_present_cell in Hrow as (k & c & Hk & Hc & _ & Htrim).
    unfold findIndex in *.
    destruct (findIndex_from_found is_variant_sku header0 0)
      as [Hn|(k' & h & Hk' & Hh & Hsku & Hfirst)]; [lia|].
    assert (k' = k) as -> by lia.
    exists k, h, c. repeat split; trivial.
    + unfold is_variant_sku, str_eqb in Hsku.
      now apply bool_decide_eq_true in Hsku.
    + intros j h' Hj Hh'. specialize (Hfirst j h' Hj Hh').
      unfold is_variant_sku, str_eqb in Hfirst.
      now apply bool_decide_eq_false in Hfirst.
  - exists name, rows. repeat split; trivial.
    + cbn [length]. lia.
    + assert (Hlen : length (prune rows) = length rows).
      { unfold prune. destruct rows; [reflexivity|]. apply length_map. }
      rewrite Ep in Hlen. cbn [length] in *.
      pose proof (List.filter_length_le
                    (sku_present (findIndex is_variant_sku header0)) dataRows).
      lia.
Qed.

(** ** Exporting an export *)

Lemma keep_cols_CStr row : forall headers,
  Forall (fun c => match c with Some v => is_CStr v = true | None => True end) row ->
  Forall (fun v => is_CStr v = true) (keep_cols headers row).
Proof.
  induction row as [|c row IH]; intros headers Hrow; [constructor|].
  inversion Hrow as [|? ? Hc Hrow']; subst. cbn [keep_cols].
  specialize (IH (tl headers) Hrow').
  destruct c as [v|]; [|exact IH].
  destruct headers as [|[h|] headers]; try (now constructor).
  destruct (has_listed_prefix (String_ h)); [exact IH|now constructor].
Qed.

Lemma prune_csv_cells t :
  Forall (Forall (fun v => is_CStr v = true)) (prune (csv_table t)).
Proof.
  destruct t as [|header data]; [constructor|].
  unfold csv_table. cbn [List.map]. rewrite prune_keep_cols.
  apply List.Forall_forall. intros row Hrow.
  apply List.in_map_iff in Hrow as (row0 & <- & Hrow0).
  apply keep_cols_CStr.
  change (List.map cell_of header :: List.map (List.map cell_of) data)
    with (List.map (List.map cell_of) (header :: data)) in Hrow0.
  apply List.in_map_iff in Hrow0 as (r & <- & _).
  apply List.Forall_forall. intros c Hc.
  apply List.in_map_iff in Hc as (x & <- & _). reflexivity.
Qed.

Lemma CStr_texts row :
  Forall (fun v => is_CStr v = true) row -> List.map CStr (List.map String_ row) = row.
Proof.
  induction 1 as [|v row Hv _ IH]; [reflexivity|].
  cbn [List.map]. rewrite IH. now destruct v.
Qed.

Lemma CStr_table_texts d :
  Forall (Forall (fun v => is_CStr v = true)) d ->
  List.map (List.map CStr) (List.map (List.map String_) d) = d.
Proof.
  induction 1 as [|row d Hrow _ IH]; [reflexivity|].
  cbn [List.map]. now rewrite IH, CStr_texts.
Qed.

Lemma csv_table_texts d :
  Forall (Forall (fun v => is_CStr v = true)) d ->
  csv_table (List.map (List.map String_) d) = List.map (List.map Some) d.
Proof.
  unfold csv_table.
  induction 1 as [|row d Hrow _ IH]; [reflexivity|].
  cbn [List.map]. rewrite IH. f_equal.
  induction Hrow as [|v row Hv _ IHrow]; [reflexivity|].
  cbn [List.map]. rewrite IHrow. now destruct v.
Qed.

Lemma trim_empty : trim [] = [].
Proof. reflexivity. Qed.

(** A row that is kept can be written and read back. *)
Lemma sku_present_recordable idx row :
  sku_present idx row = true -> recordable (List.map String_ row).
Proof.
  intros H. apply sku_present_cell in H as (k & c & _ & Hc & _ & Htrim).
  split.
  - destruct row; [now destruct k|discriminate].
  - destruct row as [|v [|w row]]; cbn [List.map]; try discriminate.
    intros [= E]. destruct k as [|k]; [|now destruct k].
    injection Hc as ->. rewrite E in Htrim. now apply Htrim.
Qed.

Lemma filter_twice {A} (f : A -> bool) (l : list A) :
  List.filter f (List.filter f l) = List.filter f l.
Proof.
  induction l as [|x l IH]; [reflexivity|].
  cbn [List.filter]. destruct (f x) eqn:E; [|exact IH].
  cbn [List.filter]. now rewrite E, IH.
Qed.

(** X7.  Exporting an export changes nothing: when the table exported from
    a CSV table has a "Variant SKU" header cell, writing it with
    [rowToCSV], reading the text with [parseCSV] and transforming the
    outcome gives the same table again. *)
Theorem export_of_export_is_the_same_table (t : list (list jsstring)) :
  In (js "Variant SKU") (List.map String_ (hd [] (transformData (csv_table t)))) ->
  transformData
    (csv_table (parseCSV (tableToCSV (transformData (csv_table t)))))
  = transformData (csv_table t).
Proof.
  rewrite (transformData_eq_spec (csv_table t)). unfold transformData_spec.
  pose proof (prune_csv_cells t) as Hcells.
  pose proof (prune_header_clean (csv_table t)) as Hclean.
  destruct (prune (csv_table t)) as [|header0 dataRows]; [intros []|].
  cbn [hd] in *. intros Hsku.
  set (idx := findIndex is_variant_sku header0).
  set (kept := List.filter (sku_present idx) dataRows).
  assert (Hd : Forall (Forall (fun v => is_CStr v = true)) (header0 :: kept)).
  { inversion Hcells as [|? ? Hh Hrest]; subst. constructor; [exact Hh|].
    apply List.Forall_forall. intros row Hrow.
    apply List.filter_In in Hrow as [Hrow _].
    rewrite List.Forall_forall in Hrest. now apply Hrest. }
  assert (Hrec : Forall recordable (List.map (List.map String_) (header0 :: kept))).
  { cbn [List.map]. constructor.
    - split.
      + intros E. rewrite E in Hsku. contradiction.
      + intros E. rewrite E in Hsku. destruct Hsku as [Hsku|[]]. discriminate Hsku.
    - apply List.Forall_forall. intros r Hr.
      apply List.in_map_iff in Hr as (row & <- & Hrow).
      apply List.filter_In in Hrow as [_ Hrow].
      now apply (sku_present_recordable idx). }
  rewrite <- (CStr_table_texts _ Hd) at 1.
  unfold parseCSV. rewrite parse_table by exact Hrec. cbn [app].
  rewrite (csv_table_texts _ Hd), transformData_eq_spec.
  unfold transformData_spec. rewrite (prune_clean_dense header0 kept Hclean).
  fold idx. unfold kept. now rewrite filter_twice.
Qed.

(** ** The failures of createExport *)

Lemma transformData_nil_iff rows : transformData rows = [] <-> rows = [].
Proof.
  split; [|now intros ->].
  rewrite transformData_eq_spec. unfold transformData_spec.
  destruct rows as [|headers rest]; [reflexivity|].
  rewrite prune_keep_cols. discriminate.
Qed.

Lemma generate_failure rt xlsx filename rows error :
  snd (generate rt xlsx filename rows) = Return (Failure error)
  <-> rows = [] /\ error = js "No data to export".
Proof.
  rewrite generate_outcome.
  destruct (transformData rows) as [|header0 kept] eqn:E.
  - apply transformData_nil_iff in E as ->. split.
    + now intros [= <-].
    + now intros [_ ->].
  - split; [discriminate|]. intros [-> _]. discriminate E.
Qed.

Lemma read_rows_failure rt filename b error :
  snd (read_rows rt (isXlsx filename) (isCsv filename) filename b)
  = Return (Failure error)
  <-> (isXlsx filename = false /\ isCsv filename = false
       /\ error = js "Unsupported file format")
      \/ ((if isXlsx filename then XLSX_rows rt b
           else if isCsv filename
                then Some (csv_table (parseCSV (Buffer_toString b)))
                else None) = Some []
          /\ error = js "No data to export").
Proof.
  rewrite read_rows_outcome.
  destruct (isXlsx filename); [|destruct (isCsv filename)].
  - destruct (XLSX_rows rt b) as [rows|].
    + rewrite generate_failure. split.
      * intros [-> ->]. now right.
      * intros [(H & _)|([= ->] & ->)]; [discriminate H|auto].
    + split; [discriminate|]. intros [(H & _)|(H & _)]; discriminate H.
  - rewrite generate_failure. split.
    + intros [-> ->]. now right.
    + intros [(_ & H & _)|([= ->] & ->)]; [discriminate H|auto].
  - split.
    + intros [= <-]. auto.
    + intros [(_ & _ & ->)|(H & _)]; [reflexivity|discriminate H].
Qed.

Local Set Warnings "-clear-no-such-hyp".

(** X8.  [createExport] answers with one of four failures, each for one
    cause: "No file provided" when the file is falsy, whatever the name;
    "Invalid file format" when the file is of no known shape; "Unsupported
    file format" when the bytes were obtained and the name ends in neither
    suffix; "No data to export" when the parsed table has no row. *)
Theorem createExport_failure_causes rt file filename error :
  snd (createExport rt file filename) = Return (Failure error)
  <-> (file_truthy file = false /\ error = js "No file provided")
      \/ (file = FileOther true /\ filename <> None
          /\ error = js "Invalid file format")
      \/ (exists name b,
            filename = Some name /\ file_bytes rt file = Some b
            /\ isXlsx name = false /\ isCsv name = false
            /\ error = js "Unsupported file format")
      \/ (exists name,
            filename = Some name /\ parsed_rows rt file name = Some []
            /\ error = js "No data to export").
Proof.
  rewrite createExport_outcome. unfold parsed_rows.
  destruct file as [b|path|[b|]|[|]]; cbn [file_truthy file_bytes negb];
    try (destruct (str_truthy path) eqn:Hp; cbn [negb]);
    destruct filename as [name|];
    try (destruct (readFileSync rt path) as [b|] eqn:Hr);
    try rewrite read_rows_failure.
  all: naive_solver.
Qed.

(** ** The type of the download *)

Lemma endsWith_app (a p : jsstring) : endsWith (a ++ p) p = true.
Proof.
  unfold endsWith, str_eqb. rewrite length_app.
  replace (length a + length p - length p)%nat with (length a) by lia.
  rewrite drop_app_length, bool_decide_eq_true_2 by reflexivity.
  rewrite andb_true_r. apply Nat.leb_le. lia.
Qed.

Lemma endsWith_other (a q p : jsstring) :
  length q = length p -> q <> p -> endsWith (a ++ q) p = false.
Proof.
  intros Hlen Hne. unfold endsWith, str_eqb. rewrite length_app, Hlen.
  replace (length a + length p - length p)%nat with (length a) by lia.
  rewrite drop_app_length, bool_decide_eq_false_2 by assumption.
  apply andb_false_r.
Qed.

Lemma download_type_of_export (xlsx : bool) (name : jsstring) :
  (if xlsx then isXlsx name else isCsv name) = true ->
  download_type (export_name xlsx name)
  = if xlsx
    then js "application/vnd.openxmlformats-officedocument.spreadsheetml.sheet"
    else js "text/csv".
Proof.
  intros H. unfold export_name, download_type. destruct xlsx.
  - destruct (replace_suffix_match _ (js "-export.xlsx") xlsx_suffix_ok name H)
      as (stem & ending & _ & _ & ->).
    change (js "-export.xlsx") with (js "-export" ++ js ".xlsx").
    now rewrite app_assoc, endsWith_app.
  - destruct (replace_suffix_match _ (js "-export.csv") csv_suffix_ok name H)
      as (stem & ending & _ & _ & ->).
    change (js "-export.csv") with (js "-expor" ++ js "t.csv").
    rewrite app_assoc, endsWith_other; [reflexivity|reflexivity|discriminate].
Qed.

(** X9.  The page picks the type of the download from the name of the
    export, letter case included; because the replacement writes the suffix
    in lower case, the type is the spreadsheet one exactly when the upload
    was read as XLSX, whatever the letter case of its name. *)
Theorem download_type_follows_the_format rt file filename name' buf count data :
  snd (createExport rt file filename) = Return (Success name' buf count data) ->
  exists name,
    filename = Some name
    /\ download_type name'
       = if isXlsx name
         then js "application/vnd.openxmlformats-officedocument.spreadsheetml.sheet"
         else js "text/csv".
Proof.
  intros H. apply createExport_success in H as (name & rows & -> & Hp & Hg).
  exists name. split; [reflexivity|].
  rewrite generate_outcome in Hg.
  destruct (transformData rows); [discriminate|]. injection Hg as <- _ _ _.
  apply download_type_of_export.
  unfold parsed_rows in Hp. destruct (file_bytes rt file); [|discriminate].
  destruct (isXlsx name); [reflexivity|].
  now destruct (isCsv name).
Qed.

(** ** The route and its history *)

(** What a successful upload has done. *)
Lemma action_exported rt db req filename buf count data db' :
  Route.action rt db req = (Reply (Exported filename buf count data), db') ->
  exists s name content buffer,
    session req = Some s
    /\ entry_is (actionType req) (js "download") = false
    /\ productFile req = FileEntry name content
    /\ snd (createExport rt (FileBuffer content) (Some name))
       = Return (Success filename buffer count data)
    /\ buf = Array_from buffer
    /\ findUnique db (new_id req) = None
    /\ db' = deleteMany
               (db ++ [mkHistory (new_id req) s filename name count buffer
                         (created_at req)])
               s (sevenDaysAgo req).
Proof.
  unfold Route.action.
  destruct (session req) as [s|]; [|discriminate].
  destruct (entry_is (actionType req) (js "download")).
  { destruct (historyId req) as [|key|]; try discriminate.
    destruct (findUnique db key) as [h|]; [|discriminate].
    destruct (negb (str_eqb (shop h) s)); discriminate. }
  destruct (productFile req) as [|t|name content]; try discriminate.
  { destruct (str_truthy t); discriminate. }
  destruct (snd (createExport rt (FileBuffer content) (Some name)))
    as [[fn buffer rc d|error]|e] eqn:Hce; try discriminate.
  destruct (findUnique db (new_id req)) eqn:Hfresh; [discriminate|].
  intros [= <- <- <- <- <-]. exists s, name, content, buffer.
  repeat split; trivial.
Qed.

(** Anything but a successful upload leaves the table as it is. *)
Lemma action_reads_only rt db req r db' :
  Route.action rt db req = (r, db') ->
  (forall filename buf count data, r <> Reply (Exported filename buf count data)) ->
  db' = db.
Proof.
  unfold Route.action. intros H Hr.
  destruct (session req) as [s|]; [|now injection H].
  destruct (entry_is (actionType req) (js "download")).
  { destruct (historyId req) as [|key|]; try (now injection H).
    destruct (findUnique db key) as [h|]; [|now injection H].
    destruct (negb (str_eqb (shop h) s)); now injection H. }
  destruct (productFile req) as [|t|name content]; try (now injection H).
  { destruct (str_truthy t); now injection H. }
  destruct (snd (createExport rt (FileBuffer content) (Some name)))
    as [[fn buffer rc d|error]|e]; try (now injection H).
  destruct (findUnique db (new_id req)); [now injection H|].
  injection H as <- _. now contradiction (Hr fn (Array_from buffer) rc d).
Qed.

Lemma findUnique_after_create db row s before :
  findUnique db (id row) = None ->
  (str_eqb (shop row) s && (createdAt row <? before)%Z) = false ->
  findUnique (deleteMany (db ++ [row]) s before) (id row) = Some row.
Proof.
  unfold findUnique, deleteMany. intros Hfresh Hkeep.
  induction db as [|h db IH].
  - cbn. rewrite Hkeep. cbn. unfold str_eqb. now rewrite bool_decide_eq_true_2.
  - cbn [List.find] in Hfresh.
    destruct (str_eqb (id h) (id row)) eqn:E; [discriminate|].
    cbn [app List.filter].
    destruct (negb (str_eqb (shop h) s && (createdAt h <? before)%Z)).
    + cbn [List.find]. rewrite E. now apply IH.
    + now apply IH.
Qed.

(** X10.  An export that was just stored can be downloaded: after an
    upload answered with an export, and unless the clock puts the new row
    before the seven-day limit, a download request of the same session for
    the new row's id returns the same name, bytes and row count, and
    changes nothing. *)
Theorem uploaded_export_can_be_downloaded
    rt db up down filename buf count data db' :
  Route.action rt db up = (Reply (Exported filename buf count data), db') ->
  (sevenDaysAgo up <= created_at up)%Z ->
  session down = session up ->
  actionType down = TextEntry (js "download") ->
  historyId down = TextEntry (new_id up) ->
  Route.action rt db' down = (Reply (Downloaded filename buf count), db').
Proof.
  intros Hup Htime Hs Ha Hid.
  apply action_exported in Hup
    as (s & name & content & buffer & Hsess & _ & _ & _ & -> & Hfresh & ->).
  unfold Route.action. rewrite Hs, Hsess, Ha, Hid.
  replace (entry_is (TextEntry (js "download")) (js "download")) with true
    by reflexivity.
  set (row := mkHistory (new_id up) s filename name count buffer (created_at up)).
  pose proof (findUnique_after_create db row s (sevenDaysAgo up)) as Hfind.
  change (id row) with (new_id up) in Hfind.
  change (createdAt row) with (created_at up) in Hfind.
  rewrite Hfind.
  - change (shop row) with s. unfold str_eqb.
    now rewrite bool_decide_eq_true_2.
  - exact Hfresh.
  - destruct (Z.ltb_spec (created_at up) (sevenDaysAgo up));
      [lia|apply andb_false_r].
Qed.

Lemma filter_other_shops db s before :
  List.filter (fun h => negb (str_eqb (shop h) s)) (deleteMany db s before)
  = List.filter (fun h => negb (str_eqb (shop h) s)) db.
Proof.
  unfold deleteMany. induction db as [|h db IH]; [reflexivity|].
  cbn [List.filter]. destruct (str_eqb (shop h) s) eqn:E; cbn [andb negb].
  - destruct (createdAt h <? before)%Z; cbn [negb List.filter];
      [exact IH|]. rewrite E. exact IH.
  - cbn [List.filter]. rewrite E. cbn [negb]. now rewrite IH.
Qed.

(** X11.  Shops are kept apart: whatever the request of a session does,
    the rows of the other shops are the same after it as before; and a
    download is answered only from a row of the session's own shop, the
    one with the id asked for. *)
Theorem action_keeps_shops_apart rt db req r db' s :
  Route.action rt db req = (r, db') ->
  session req = Some s ->
  List.filter (fun h => negb (str_eqb (shop h) s)) db'
  = List.filter (fun h => negb (str_eqb (shop h) s)) db
  /\ (forall filename buf count,
      r = Reply (Downloaded filename buf count) ->
      exists h, In h db /\ shop h = s /\ historyId req = TextEntry (id h)
                /\ filename = h_filename h
                /\ buf = Array_from (fileBuffer h) /\ count = h_rowCount h).
Proof.
  intros H Hs. split.
  - destruct r as [[fn buf rc|fn buf rc d|e]|f];
      try (rewrite (action_reads_only rt db req _ db' H); [reflexivity|discriminate]).
    apply action_exported in H
      as (s' & name & content & buffer & Hsess & _ & _ & _ & _ & _ & ->).
    assert (s' = s) as -> by congruence.
    rewrite filter_other_shops, List.filter_app. cbn [List.filter shop].
    unfold str_eqb at 2. rewrite bool_decide_eq_true_2 by reflexivity.
    cbn [negb]. apply app_nil_r.
  - intros fn buf rc ->. revert H. unfold Route.action. rewrite Hs.
    destruct (entry_is (actionType req) (js "download")).
    + destruct (historyId req) as [|key|]; try discriminate.
      destruct (findUnique db key) as [h|] eqn:Hfind; [|discriminate].
      destruct (str_eqb (shop h) s) eqn:Hshop; cbn [negb]; [|discriminate].
      intros [= <- <- <- _]. exists h.
      unfold findUnique in Hfind. apply List.find_some in Hfind as [Hin Hid].
      unfold str_eqb in *. apply bool_decide_eq_true in Hid, Hshop.
      subst. auto 10.
    + destruct (productFile req) as [|t|name content]; try discriminate.
      { destruct (str_truthy t); discriminate. }
      destruct (snd (createExport rt (FileBuffer content) (Some name)))
        as [[? ? ? ?|?]|?]; try discriminate.
      destruct (findUnique db (new_id req)); discriminate.
Qed.



(** X13.  The route with the history answers an upload as the route
    without it does, as long as the id of the new row is not taken. *)
Theorem history_leaves_upload_answers_alone rt db req :
  entry_is (actionType req) (js "download") = false ->
  findUnique db (new_id req) = None ->
  fst (Route.action rt db req) = PlainRoute.action rt req.
Proof.
  intros Ha Hfresh. unfold Route.action, PlainRoute.action.
  rewrite Ha, Hfresh.
  destruct (session req); [|reflexivity].
  destruct (productFile req) as [|t|name content]; [reflexivity| |].
  - now destruct (str_truthy t).
  - now destruct (snd (createExport rt (FileBuffer content) (Some name)))
      as [[? ? ? ?|?]|?].
Qed.

(** X14.  What the upload route can answer.  It never answers "Invalid
    file format": it hands [createExport] a buffer.  "No file provided" is
    for a missing or empty field; a file gives "Unsupported file format"
    when its name ends in neither suffix, "No data to export" when its
    parsed table has no row, or the export [createExport] returns for its
    bytes under its name, the buffer as an array of byte values.  Nothing
    is said of a run that ends in an exception. *)
Theorem upload_answers rt req :
  match PlainRoute.action rt req with
  | Reply (Failed error) =>
      ((productFile req = NoEntry \/ productFile req = TextEntry [])
       /\ error = js "No file provided")
      \/ exists name content,
           productFile req = FileEntry name content
           /\ ((isXlsx name = false /\ isCsv name = false
                /\ error = js "Unsupported file format")
               \/ (parsed_rows rt (FileBuffer content) name = Some []
                   /\ error = js "No data to export"))
  | Reply (Downloaded _ _ _) => False
  | Reply (Exported filename buf count data) =>
      exists name content buffer,
        productFile req = FileEntry name content
        /\ snd (createExport rt (FileBuffer content) (Some name))
           = Return (Success filename buffer count data)
        /\ buf = Array_from buffer
  | Raise _ => True
  end.
Proof.
  unfold PlainRoute.action.
  destruct (session req); [|exact I].
  destruct (productFile req) as [|t|name content]; [auto| |].
  - destruct t; cbn [str_truthy]; [auto|exact I].
  - destruct (snd (createExport rt (FileBuffer content) (Some name)))
      as [[fn buffer rc d|error]|e] eqn:E; [| |exact I].
    + eauto 10.
    + right. exists name, content. split; [reflexivity|].
      rewrite createExport_outcome in E. cbn [file_truthy negb] in E.
      apply read_rows_failure in E. exact E.
Qed.

(** ** A quote that is never closed *)

Lemma parse_inside_quotes f : forall rs cr fld,
  includes f DQUOTE = false ->
  parse_loop f (mkP rs cr fld true) = mkP rs cr (fld ++ f) true.
Proof.
  induction f as [|u f IH]; intros rs cr fld Hf.
  - cbn. now rewrite app_nil_r.
  - unfold includes in Hf. cbn [existsb] in Hf.
    apply orb_false_iff in Hf as [Hu Hf].
    cbn [parse_loop]. rewrite step_inside.
    + rewrite IH by exact Hf. now rewrite <- app_assoc.
    + intros ->. discriminate Hu.
Qed.

(** X15.  A quote character that opens a field and is never closed does
    not make [parseCSV] fail: after the complete lines before it, all the
    text that follows, commas and line endings included, becomes the one
    field of a last record. *)
Theorem parseCSV_unclosed_quote lead lines (f : jsstring) :
  forallb is_terminator lead = true ->
  Forall ended_line lines ->
  includes f DQUOTE = false -> f <> [] ->
  parseCSV (lead ++ csv_lines lines ++ [DQUOTE] ++ f)
  = List.map fst lines ++ [[f]].
Proof.
  intros Hlead Hl Hf Hne. unfold parseCSV.
  rewrite (parse_blank_lines (length lead)); trivial.
  - rewrite parse_ended_lines by (trivial; reflexivity).
    cbn [app parse_loop]. rewrite step_quote_toggle by reflexivity.
    cbn [negb]. rewrite parse_inside_quotes by exact Hf.
    unfold finish, pending. cbn. destruct f; [contradiction|reflexivity].
  - destruct lines as [|[r sep] lines]; [reflexivity|].
    inversion Hl as [|? ? (Hr & _) _]; subst.
    unfold csv_lines. cbn [flat_map fst snd]. rewrite <- !app_assoc.
    now apply row_text_head.
Qed.

(** ** Instances of the further properties *)

Lemma parseCSV_rows_have_content_witness : [js "a"] <> [] /\ [js "a"] <> [[]].
Proof.
  apply (parseCSV_rows_have_content ([LF] ++ js "a" ++ [LF; LF])).
  vm_compute. left. reflexivity.
Defined.

Lemma parseCSV_any_line_ending_witness :
  parseCSV ([LF; CR] ++ csv_lines mixed_endings ++ csv_last_line (Some [js "e"]))
  = List.map fst mixed_endings ++ [[js "e"]].
Proof.
  apply (parseCSV_any_line_ending [LF; CR] mixed_endings (Some [js "e"])).
  - reflexivity.
  - repeat constructor; vm_compute; discriminate.
  - intros r [= <-]. split; vm_compute; discriminate.
Defined.

Lemma exported_rows_have_a_sku_witness :
  Forall (fun row =>
            exists k h c,
              findIndex is_variant_sku (hd [] scenario_data) = Z.of_nat k
              /\ nth_error (hd [] scenario_data) k = Some h
              /\ String_ h = js "Variant SKU"
              /\ (forall j h', (j < k)%nat ->
                               nth_error (hd [] scenario_data) j = Some h' ->
                               String_ h' <> js "Variant SKU")
              /\ nth_error row k = Some c
              /\ trim (String_ c) <> [])
         (tl scenario_data)
  /\ exists name rows,
       Some (js "products.csv") = Some name
       /\ parsed_rows bare_runtime (FileBuffer (Buffer_from scenario_input)) name
          = Some rows
       /\ (0 <= 1 <= Z.of_nat (length rows) - 1)%Z.
Proof.
  apply (exported_rows_have_a_sku bare_runtime
           (FileBuffer (Buffer_from scenario_input)) (Some (js "products.csv"))
           (js "products-export.csv") (Buffer_from scenario_output)).
  vm_compute. reflexivity.
Defined.

Lemma export_of_export_witness :
  transformData
    (csv_table (parseCSV (tableToCSV
       (transformData (csv_table (parseCSV scenario_input))))))
  = transformData (csv_table (parseCSV scenario_input)).
Proof.
  apply (export_of_export_is_the_same_table (parseCSV scenario_input)).
  vm_compute. right. left. reflexivity.
Defined.

Lemma createExport_failure_causes_witness :
  (file_truthy (FileOther true) = false
   /\ js "Invalid file format" = js "No file provided")
  \/ (FileOther true = FileOther true /\ Some (js "data.txt") <> None
      /\ js "Invalid file format" = js "Invalid file format")
  \/ (exists name b,
        Some (js "data.txt") = Some name
        /\ file_bytes bare_runtime (FileOther true) = Some b
        /\ isXlsx name = false /\ isCsv name = false
        /\ js "Invalid file format" = js "Unsupported file format")
  \/ (exists name,
        Some (js "data.txt") = Some name
        /\ parsed_rows bare_runtime (FileOther true) name = Some []
        /\ js "Invalid file format" = js "No data to export").
Proof.
  apply (proj1 (createExport_failure_causes bare_runtime (FileOther true)
                  (Some (js "data.txt")) (js "Invalid file format"))).
  vm_compute. reflexivity.
Defined.

Lemma download_type_witness :
  exists name,
    Some (js "products.CSV") = Some name
    /\ download_type (js "products-export.csv")
       = if isXlsx name
         then js "application/vnd.openxmlformats-officedocument.spreadsheetml.sheet"
         else js "text/csv".
Proof.
  apply (download_type_follows_the_format bare_runtime
           (FileBuffer (Buffer_from scenario_input)) (Some (js "products.CSV"))
           (js "products-export.csv") (Buffer_from scenario_output) 1%Z
           scenario_data).
  vm_compute. reflexivity.
Defined.

Lemma uploaded_export_witness :
  Route.action bare_runtime stored_table download_request
  = (Reply (Downloaded (js "products-export.csv")
              (Array_from (Buffer_from scenario_output)) 1),
     stored_table).
Proof.
  apply (uploaded_export_can_be_downloaded bare_runtime [foreign_row]
           upload_request download_request (js "products-export.csv")
           (Array_from (Buffer_from scenario_output)) 1%Z scenario_data
           stored_table).
  - vm_compute. reflexivity.
  - vm_compute. discriminate.
  - reflexivity.
  - reflexivity.
  - reflexivity.
Defined.

Lemma shops_apart_witness :
  List.filter (fun h => negb (str_eqb (shop h) (js "a.myshopify.com"))) stored_table
  = List.filter (fun h => negb (str_eqb (shop h) (js "a.myshopify.com")))
      [foreign_row]
  /\ (forall filename buf count,
      Reply (Exported (js "products-export.csv")
               (Array_from (Buffer_from scenario_output)) 1 scenario_data)
      = Reply (Downloaded filename buf count) ->
      exists h, In h [foreign_row] /\ shop h = js "a.myshopify.com"
                /\ historyId upload_request = TextEntry (id h)
                /\ filename = h_filename h
                /\ buf = Array_from (fileBuffer h) /\ count = h_rowCount h).
Proof.
  apply (action_keeps_shops_apart bare_runtime [foreign_row] upload_request
           (Reply (Exported (js "products-export.csv")
                     (Array_from (Buffer_from scenario_output)) 1 scenario_data))
           stored_table (js "a.myshopify.com")).
  - vm_compute. reflexivity.
  - reflexivity.
Defined.


Lemma history_leaves_upload_answers_alone_witness :
  fst (Route.action bare_runtime [foreign_row] upload_request)
  = PlainRoute.action bare_runtime upload_request.
Proof.
  apply (history_leaves_upload_answers_alone bare_runtime [foreign_row]
           upload_request); vm_compute; reflexivity.
Defined.

Lemma parseCSV_unclosed_quote_witness :
  parseCSV ([LF] ++ csv_lines mixed_endings ++ [DQUOTE]
            ++ (js "x,y" ++ [LF] ++ js "z"))
  = List.map fst mixed_endings ++ [[js "x,y" ++ [LF] ++ js "z"]].
Proof.
  apply (parseCSV_unclosed_quote [LF] mixed_endings (js "x,y" ++ [LF] ++ js "z")).
  - reflexivity.
  - repeat constructor; vm_compute; discriminate.
  - reflexivity.
  - vm_compute. discriminate.
Defined.

(** ** The rows with a SKU, instances *)


